(** * libovsdb, package mapper: the Info type map (mapper/info.go)

    A shallow embedding of [Info] and its operations [NewInfo],
    [FieldByColumn], [hasColumn], [SetField], [ColumnByPtr] and
    [getValidIndexes], over a model of the part of Go's package [reflect]
    that the file uses, and over the interface of package [ovsdb]. *)

From Stdlib Require Import ZArith Ascii String List Lia SpecFloat.
From stdpp Require Import gmap strings list fin_maps.

Set Warnings "-register-all,-non-full-mutual,-clear-no-such-hyp".

Open Scope string_scope.
Open Scope Z_scope.

(** * Outcomes of a Go call

    A Go function of result type [(T, error)] returns a value, returns an
    error, or panics (package reflect panics on misuse). *)

Inductive result (E A : Type) : Type :=
  | Ok (a : A)
  | Err (e : E)
  | Panic (msg : string).
Arguments Ok {E A} a.
Arguments Err {E A} e.
Arguments Panic {E A} msg.

Definition bind {E A B} (r : result E A) (k : A -> result E B) : result E B :=
  match r with
  | Ok a => k a
  | Err e => Err e
  | Panic m => Panic m
  end.

Notation "'let!' x ':=' r 'in' k" := (bind r (fun x => k))
  (at level 10, x name, r at level 100, k at level 200).

Definition is_Ok {E A} (r : result E A) : bool :=
  match r with Ok _ => true | _ => false end.

Definition is_Err {E A} (r : result E A) : bool :=
  match r with Err _ => true | _ => false end.

(** * Numeric conversions of the Go runtime *)

(** [string(rune(n))]: the UTF-8 encoding of the code point [n], and of
    U+FFFD when [n] is not a valid code point. *)
Definition byte_string (bs : list Z) : string :=
  fold_right (fun b s => String (ascii_of_N (Z.to_N b)) s) EmptyString bs.

Definition utf8 (n : Z) : string :=
  if (n <? 0) || (1114111 <? n) || ((55296 <=? n) && (n <=? 57343))
  then byte_string [239; 191; 189]
  else if n <? 128 then byte_string [n]
  else if n <? 2048
  then byte_string [Z.lor 192 (Z.shiftr n 6); Z.lor 128 (Z.land n 63)]
  else if n <? 65536
  then byte_string [Z.lor 224 (Z.shiftr n 12);
                    Z.lor 128 (Z.land (Z.shiftr n 6) 63);
                    Z.lor 128 (Z.land n 63)]
  else byte_string [Z.lor 240 (Z.shiftr n 18);
                    Z.lor 128 (Z.land (Z.shiftr n 12) 63);
                    Z.lor 128 (Z.land (Z.shiftr n 6) 63);
                    Z.lor 128 (Z.land n 63)].

(** [float64(n)] for an int [n]: rounding to the nearest binary64. *)
Definition float64_of_int (n : Z) : spec_float :=
  binary_normalize 53 1024 n 0 false.

(** [int(f)] for a float64 [f]: truncation towards zero; a value that an
    int cannot hold gives the least int, as the amd64 instruction does. *)
Definition int_of_float64 (f : spec_float) : Z :=
  let least := - 2 ^ 63 in
  match f with
  | S754_zero _ => 0
  | S754_finite s m e =>
      let a := if 0 <=? e then Z.shiftl (Zpos m) e else Z.shiftr (Zpos m) (- e) in
      let z := if s then - a else a in
      if (least <=? z) && (z <? 2 ^ 63) then z else least
  | _ => least
  end.

(** * Package reflect *)

Module reflect.

(** ** Types

    The predeclared types bool, int, float64 and string, the empty
    interface, defined types [type name under], and the pointer, slice, map
    and struct type literals.  A struct field carries its name, its type and
    the value of the [ovsdb] key of its tag, which is empty when the key is
    absent: what [Tag.Get("ovsdb")] returns. *)

Inductive GoType : Type :=
  | TBool
  | TInt
  | TFloat64
  | TString
  | TInterface
  | TDefined (pkg name : string) (under : GoType)
  | TPtr (elem : GoType)
  | TSlice (elem : GoType)
  | TMap (key elem : GoType)
  | TStruct (fs : FieldList)
with FieldList : Type :=
  | FNil
  | FCons (name : string) (ty : GoType) (tag : string) (rest : FieldList).

Lemma GoType_eq_dec : forall a b : GoType, {a = b} + {a <> b}
with FieldList_eq_dec : forall a b : FieldList, {a = b} + {a <> b}.
Proof.
  - decide equality; apply string_dec.
  - decide equality; apply string_dec.
Defined.

#[global] Instance GoType_eqdec : EqDecision GoType := GoType_eq_dec.

Inductive Kind : Type :=
  | Invalid | Bool | Int | Float64 | Interface | Map | Ptr | Slice | String
  | Struct.

#[global] Instance Kind_eqdec : EqDecision Kind.
Proof. solve_decision. Defined.

(** The underlying type of a defined type is that of its definition; any
    other type is its own underlying type. *)
Fixpoint underlying (t : GoType) : GoType :=
  match t with
  | TDefined _ _ u => underlying u
  | _ => t
  end.

Definition kindOf (t : GoType) : Kind :=
  match underlying t with
  | TBool => Bool
  | TInt => Int
  | TFloat64 => Float64
  | TString => String
  | TInterface => Interface
  | TDefined _ _ _ => Invalid
  | TPtr _ => Ptr
  | TSlice _ => Slice
  | TMap _ _ => Map
  | TStruct _ => Struct
  end.

(** [t.Elem()]: the element type of a map, pointer or slice type; it
    panics for any other kind. *)
Definition Elem {E : Type} (t : GoType) : result E GoType :=
  match underlying t with
  | TPtr e | TSlice e | TMap _ e => Ok e
  | _ => Panic "reflect: Elem of invalid type"
  end.

(** [t.hasName()]: predeclared and defined types have a name, type
    literals have none. *)
Definition hasName (t : GoType) : bool :=
  match t with
  | TBool | TInt | TFloat64 | TString | TDefined _ _ _ => true
  | _ => false
  end.

(** Struct tags are ignored when two types are compared for a conversion. *)
Fixpoint eraseTags (t : GoType) : GoType :=
  match t with
  | TDefined p n u => TDefined p n (eraseTags u)
  | TPtr e => TPtr (eraseTags e)
  | TSlice e => TSlice (eraseTags e)
  | TMap k e => TMap (eraseTags k) (eraseTags e)
  | TStruct fs => TStruct (eraseTagsF fs)
  | _ => t
  end
with eraseTagsF (fs : FieldList) : FieldList :=
  match fs with
  | FNil => FNil
  | FCons n ty _ r => FCons n (eraseTags ty) "" (eraseTagsF r)
  end.

(** [haveIdenticalUnderlyingType(T, V, cmpTags)]. *)
Definition haveIdenticalUnderlyingType (T V : GoType) (cmpTags : bool) : bool :=
  if cmpTags then bool_decide (underlying T = underlying V)
  else bool_decide (eraseTags (underlying T) = eraseTags (underlying V)).

(** [directlyAssignable(T, V)]: a value of type [V] can be stored in a
    [T] without conversion: the types are identical, or at most one of them
    has a name and their underlying types are identical. *)
Definition directlyAssignable (T V : GoType) : bool :=
  if bool_decide (T = V) then true
  else if (hasName T && hasName V) || negb (bool_decide (kindOf T = kindOf V))
  then false
  else haveIdenticalUnderlyingType T V true.

(** [implements(T, V)]: only the empty interface is modelled, which every
    type implements. *)
Definition implements (T V : GoType) : bool :=
  bool_decide (kindOf T = Interface).

(** [t.AssignableTo(u)]. *)
Definition AssignableTo (t u : GoType) : bool :=
  directlyAssignable u t || implements u t.

(** [convertOp(dst, src)]: the conversion that turns a value of type
    [src] into one of type [dst], if there is one. *)
Inductive ConvOp : Type :=
  | cvtInt | cvtIntFloat | cvtIntString | cvtFloatInt | cvtFloat
  | cvtDirect | cvtT2I | cvtI2I.

Definition convertOp (dst src : GoType) : option ConvOp :=
  let numeric :=
    match kindOf src, kindOf dst with
    | Int, Int => Some cvtInt
    | Int, Float64 => Some cvtIntFloat
    | Int, String => Some cvtIntString
    | Float64, Int => Some cvtFloatInt
    | Float64, Float64 => Some cvtFloat
    | _, _ => None
    end in
  match numeric with
  | Some op => Some op
  | None =>
      if haveIdenticalUnderlyingType dst src false then Some cvtDirect
      else if match dst, src with
              | TPtr d, TPtr s => haveIdenticalUnderlyingType d s false
              | _, _ => false
              end
      then Some cvtDirect
      else if implements dst src
      then if bool_decide (kindOf src = Interface) then Some cvtI2I
           else Some cvtT2I
      else None
  end.

(** [t.ConvertibleTo(u)]. *)
Definition ConvertibleTo (t u : GoType) : bool :=
  match convertOp u t with Some _ => true | None => false end.

(** ** Struct layout (gc, 64-bit): sizes, alignments and field offsets *)

Definition Rnd (o a : Z) : Z := (o + a - 1) / a * a.

Fixpoint Size (t : GoType) : Z :=
  match t with
  | TBool => 1
  | TInt | TFloat64 | TPtr _ | TMap _ _ => 8
  | TString | TInterface => 16
  | TSlice _ => 24
  | TDefined _ _ u => Size u
  | TStruct fs =>
      let '(o, lastzero) := endOf fs 0 0 in
      let o1 := if (0 <? o) && (o =? lastzero) then o + 1 else o in
      Rnd o1 (maxAlign fs)
  end
with Align (t : GoType) : Z :=
  match t with
  | TBool => 1
  | TDefined _ _ u => Align u
  | TStruct fs => maxAlign fs
  | _ => 8
  end
with endOf (fs : FieldList) (o lastzero : Z) : Z * Z :=
  match fs with
  | FNil => (o, lastzero)
  | FCons _ ty _ r =>
      let o' := Rnd o (Align ty) in
      let w := Size ty in
      endOf r (o' + w) (if w =? 0 then o' else lastzero)
  end
with maxAlign (fs : FieldList) : Z :=
  match fs with
  | FNil => 1
  | FCons _ ty _ r => Z.max (Align ty) (maxAlign r)
  end.

(** [reflect.StructField]: [Tag] holds [Tag.Get("ovsdb")]. *)
Record StructField : Type := mkField {
  Name : string;
  Typ : GoType;
  Tag : string;
  Offset : Z
}.

Fixpoint layoutFrom (fs : FieldList) (o : Z) : list StructField :=
  match fs with
  | FNil => []
  | FCons n ty tag r =>
      let o' := Rnd o (Align ty) in
      mkField n ty tag o' :: layoutFrom r (o' + Size ty)
  end.

(** The fields [t.Field(0)], ..., [t.Field(t.NumField()-1)] of a struct
    type; [NumField] panics for any other kind. *)
Definition Fields {E : Type} (t : GoType) : result E (list StructField) :=
  match underlying t with
  | TStruct fs => Ok (layoutFrom fs 0)
  | _ => Panic "reflect: NumField of non-struct type"
  end.

(** ** Values

    A [GoValue] is what an [interface{}] holds: [VNil] is the nil
    interface, any other value carries its dynamic type.  A pointer carries
    its address and what it points to ([None] for a nil pointer); a slice or
    a map is nil ([None]) or holds its elements. *)

Inductive GoValue : Type :=
  | VNil
  | VBool (t : GoType) (b : bool)
  | VInt (t : GoType) (n : Z)
  | VFloat (t : GoType) (f : spec_float)
  | VString (t : GoType) (s : string)
  | VPtr (t : GoType) (addr : Z) (target : option GoValue)
  | VSlice (t : GoType) (elems : option (list GoValue))
  | VMap (t : GoType) (entries : option (list (GoValue * GoValue)))
  | VStruct (t : GoType) (fields : list GoValue).

(** [reflect.TypeOf(i)]: the dynamic type, nil for the nil interface. *)
Definition TypeOf (i : GoValue) : option GoType :=
  match i with
  | VNil => None
  | VBool t _ | VInt t _ | VFloat t _ | VString t _ | VPtr t _ _
  | VSlice t _ | VMap t _ | VStruct t _ => Some t
  end.

(** The same representation seen at another type. *)
Definition retype (i : GoValue) (t : GoType) : GoValue :=
  match i with
  | VNil => VNil
  | VBool _ b => VBool t b
  | VInt _ n => VInt t n
  | VFloat _ f => VFloat t f
  | VString _ s => VString t s
  | VPtr _ a g => VPtr t a g
  | VSlice _ l => VSlice t l
  | VMap _ l => VMap t l
  | VStruct _ l => VStruct t l
  end.

(** [reflect.Value]: the zero Value, or a value seen at a static type.
    At an interface type the content is the dynamic value held ([VNil] when
    the interface is nil); at any other type the content has that type. *)
Inductive Value : Type :=
  | ZeroValue
  | MkValue (typ : GoType) (content : GoValue).

Definition ValueOf (i : GoValue) : Value :=
  match TypeOf i with
  | None => ZeroValue
  | Some t => MkValue t i
  end.

(** A content seen at type [t]. *)
Definition atType (t : GoType) (c : GoValue) : Value :=
  if bool_decide (kindOf t = Interface) then MkValue t c
  else MkValue t (retype c t).

Definition Value_Kind (v : Value) : Kind :=
  match v with
  | ZeroValue => Invalid
  | MkValue t _ => kindOf t
  end.

Definition Value_IsValid (v : Value) : bool :=
  match v with ZeroValue => false | MkValue _ _ => true end.

Definition Value_Type {E : Type} (v : Value) : result E GoType :=
  match v with
  | ZeroValue => Panic "reflect: call of reflect.Value.Type on zero Value"
  | MkValue t _ => Ok t
  end.

Definition Value_Interface {E : Type} (v : Value) : result E GoValue :=
  match v with
  | ZeroValue => Panic "reflect: call of reflect.Value.Interface on zero Value"
  | MkValue _ c => Ok c
  end.

(** [v.Elem()]: what a pointer points to or an interface holds; the zero
    Value for a nil pointer or a nil interface. *)
Definition Value_Elem {E : Type} (v : Value) : result E Value :=
  match v with
  | ZeroValue => Panic "reflect: call of reflect.Value.Elem on zero Value"
  | MkValue t c =>
      match kindOf t, c with
      | Interface, _ => Ok (ValueOf c)
      | Ptr, VPtr _ _ (Some g) =>
          match underlying t with
          | TPtr e => Ok (atType e g)
          | _ => Panic "reflect: ill-typed pointer"
          end
      | Ptr, _ => Ok ZeroValue
      | _, _ => Panic "reflect: call of reflect.Value.Elem on a value that is no pointer"
      end
  end.

(** [reflect.Indirect(v)]. *)
Definition Indirect {E : Type} (v : Value) : result E Value :=
  if bool_decide (Value_Kind v = Ptr) then Value_Elem v else Ok v.

(** [v.Pointer()] of a pointer, as a uintptr; the source calls it on
    nothing else. *)
Definition Value_Pointer {E : Type} (v : Value) : result E Z :=
  match v with
  | MkValue _ (VPtr _ a _) => Ok (a mod 2 ^ 64)
  | _ => Panic "reflect: call of reflect.Value.Pointer on a value that is no pointer"
  end.

Fixpoint fieldIndex (name : string) (fs : list StructField) : option nat :=
  match fs with
  | [] => None
  | f :: r =>
      if bool_decide (Name f = name) then Some O
      else option_map S (fieldIndex name r)
  end.

(** [v.FieldByName(name)] of a struct: the field of that name among the
    struct's own fields, the zero Value when there is none.  Fields promoted
    from an embedded struct are not modelled. *)
Definition Value_FieldByName {E : Type} (v : Value) (name : string) : result E Value :=
  match v with
  | MkValue t (VStruct _ vals) =>
      let! fs := Fields t in
      match fieldIndex name fs with
      | None => Ok ZeroValue
      | Some j =>
          match fs !! j, vals !! j with
          | Some f, Some c => Ok (MkValue (Typ f) c)
          | _, _ => Panic "reflect: ill-typed struct"
          end
      end
  | _ => Panic "reflect: call of reflect.Value.FieldByName on a value that is no struct"
  end.

Definition Value_Len {E : Type} (v : Value) : result E nat :=
  match v with
  | MkValue _ (VSlice _ l) => Ok (length (default [] l))
  | MkValue _ (VMap _ l) => Ok (length (default [] l))
  | MkValue _ (VString _ s) => Ok (String.length s)
  | _ => Panic "reflect: call of reflect.Value.Len on a value that has no length"
  end.

(** [v.Index(i)] of a slice. *)
Definition Value_Index {E : Type} (v : Value) (i : nat) : result E Value :=
  match v with
  | MkValue t (VSlice _ l) =>
      let! e := Elem t in
      match default [] l !! i with
      | Some c => Ok (MkValue e c)
      | None => Panic "reflect: slice index out of range"
      end
  | _ => Panic "reflect: call of reflect.Value.Index on a value that is no slice"
  end.

(** [v.Convert(t)]. *)
Definition Value_Convert {E : Type} (v : Value) (t : GoType) : result E Value :=
  match v with
  | ZeroValue => Panic "reflect: call of reflect.Value.Convert on zero Value"
  | MkValue src c =>
      match convertOp t src, c with
      | None, _ => Panic "reflect.Value.Convert: value cannot be converted"
      | Some cvtIntFloat, VInt _ n => Ok (MkValue t (VFloat t (float64_of_int n)))
      | Some cvtFloatInt, VFloat _ f => Ok (MkValue t (VInt t (int_of_float64 f)))
      | Some cvtIntString, VInt _ n =>
          Ok (MkValue t (VString t
                (if (- 2 ^ 31 <=? n) && (n <? 2 ^ 31) then utf8 n else utf8 65533)))
      | Some _, _ => Ok (atType t c)
      end
  end.

(** [reflect.Zero(t)]. *)
Fixpoint zeroOf (t : GoType) : GoValue :=
  match t with
  | TBool => VBool t false
  | TInt => VInt t 0
  | TFloat64 => VFloat t (S754_zero false)
  | TString => VString t ""
  | TInterface => VNil
  | TDefined _ _ u => retype (zeroOf u) t
  | TPtr _ => VPtr t 0 None
  | TSlice _ => VSlice t None
  | TMap _ _ => VMap t None
  | TStruct fs => VStruct t (zeroOfF fs)
  end
with zeroOfF (fs : FieldList) : list GoValue :=
  match fs with
  | FNil => []
  | FCons _ ty _ r => zeroOf ty :: zeroOfF r
  end.

Definition Zero (t : GoType) : Value := MkValue t (zeroOf t).

(** [x.assignTo(dst)]: [x] as a value of type [dst], when [x] may be
    assigned to a [dst]. *)
Definition assignTo {E : Type} (x : Value) (dst : GoType) : result E Value :=
  match x with
  | ZeroValue => Panic "reflect: call of reflect.Value.Set on zero Value"
  | MkValue t c =>
      if directlyAssignable dst t || implements dst t then Ok (atType dst c)
      else Panic "reflect.Set: value is not assignable to type"
  end.

(** [reflect.Append(s, x)] of one value to a slice. *)
Definition Append {E : Type} (s x : Value) : result E Value :=
  match s with
  | MkValue t (VSlice t' l) =>
      let! e := Elem t in
      let! x' := assignTo x e in
      match x' with
      | MkValue _ c => Ok (MkValue t (VSlice t' (Some (default [] l ++ [c])%list)))
      | ZeroValue => Panic "reflect.Append: zero Value"
      end
  | _ => Panic "reflect.Append: call on a value that is no slice"
  end.

End reflect.

Import reflect.

(** * Package ovsdb, as package mapper sees it *)

(** The errors of [mapper/info.go]: the [fmt.Errorf] values of
    [FieldByColumn]/[SetField] (column not found), of [SetField] (element
    not convertible, value not assignable) and of [ColumnByPtr], ovsdb's
    wrong-type error and the mapper's [ErrMapper]. *)

Inductive MapperReason : Type :=
  | ColumnMissing
  | WrongType (expType : GoType).

Inductive error : Type :=
  | ErrColumnNotFound (column : string)
  | ErrWrongType (from expected : string) (got : GoValue)
  | ErrMapper (objType : GoType) (field : string) (fieldType : GoType)
      (fieldTag : string) (reason : MapperReason)
  | ErrElemNotConvertible (column : string) (value : GoValue)
      (fieldName : string) (fieldType : GoType)
  | ErrNotAssignable (column : string) (value : GoValue)
      (fieldName : string) (fieldType : GoType)
  | ErrNoColumnInfo
  | ErrNotInStruct
  | ErrOvsdb (msg : string).

(** The declarations of package ovsdb that the mapper uses are not part of
    the file; they are taken as an interface: a table schema with its index
    groups ([table.Indexes]) and its column lookup ([table.Column], nil for
    an unknown column), [ovsdb.NativeType], [ovsdb.OvsToNative] (whose
    schema argument may be nil) and [ovsdb.IsDefaultValue]. *)
Class Ovsdb : Type := {
  TableSchema : Type;
  ColumnSchema : Type;
  Indexes : TableSchema -> list (list string);
  Column : TableSchema -> string -> option ColumnSchema;
  NativeType : ColumnSchema -> GoType;
  OvsToNative : option ColumnSchema -> GoValue -> result error GoValue;
  IsDefaultValue : ColumnSchema -> GoValue -> bool
}.

(** [ovsdb.NewErrWrongType(from, expected, got)]. *)
Definition NewErrWrongType (from expected : string) (got : GoValue) : error :=
  ErrWrongType from expected got.

(** The type [reflect.Value] itself, a struct of three words; only its kind
    is looked at. *)
Definition reflect_Value : GoType :=
  TDefined "reflect" "Value"
    (TStruct (FCons "typ" (TPtr (TDefined "reflect" "rtype" (TStruct FNil))) ""
             (FCons "ptr" (TPtr (TStruct FNil)) ""
             (FCons "flag" (TDefined "reflect" "flag" TInt) "" FNil)))).

(** * Package mapper *)

Section mapper.
Context {ovsdb : Ovsdb}.

(** [Info]: the field name of each mapped column, the object (a pointer to
    the record) and the table schema.  The fields of the record are
    exported, as the comment of [Info] requires of the object: reflect's
    refusal to read or set an unexported field is not modelled. *)
Record Info : Type := mkInfo {
  fields : gmap string string;
  obj : GoValue;
  table : TableSchema
}.

(** [reflect.ValueOf(i.obj).Elem().FieldByName(fieldName)]. *)
Definition fieldOf (i : Info) (fieldName : string) : result error Value :=
  let! s := Value_Elem (ValueOf (obj i)) in
  Value_FieldByName s fieldName.

Definition FieldByColumn (i : Info) (column : string) : result error GoValue :=
  match fields i !! column with
  | None => Err (ErrColumnNotFound column)
  | Some fieldName =>
      let! f := fieldOf i fieldName in
      Value_Interface f
  end.

Definition hasColumn (i : Info) (column : string) : bool :=
  match fields i !! column with
  | None => false
  | Some _ => true
  end.

(** [fieldValue.Set(v)], where [fieldValue] is the field [fieldName] of the
    record [i.obj] points to: the record is updated in place, or the call
    panics and leaves it as it is. *)
Definition storeField (i : Info) (fieldName : string) (c : GoValue) : result error Info :=
  match obj i with
  | VPtr pt a (Some (VStruct st vals)) =>
      let! recType := Elem pt in
      let! fs := Fields recType in
      match fieldIndex fieldName fs with
      | Some j =>
          Ok (mkInfo (fields i)
                (VPtr pt a (Some (VStruct st (<[j := c]> vals)))) (table i))
      | None => Panic "reflect: call of reflect.Value.Set on zero Value"
      end
  | _ => Panic "reflect: call of reflect.Value.Set on zero Value"
  end.

Definition Value_Set (i : Info) (fieldName : string) (fieldType : GoType)
    (x : Value) : result error unit * Info :=
  match (let! x' := assignTo x fieldType in
         match x' with
         | MkValue _ c => storeField i fieldName c
         | ZeroValue => Panic "reflect: call of reflect.Value.Set on zero Value"
         end) with
  | Ok i' => (Ok tt, i')
  | Err e => (Err e, i)
  | Panic m => (Panic m, i)
  end.

(** The loop of lines 64-67: [nv] grows by the converted elements of [v]. *)
Fixpoint appendConverted (v : Value) (elemType : GoType) (idx : list nat)
    (nv : Value) : result error Value :=
  match idx with
  | [] => Ok nv
  | k :: rest =>
      let! x := Value_Index v k in
      let! y := Value_Convert x elemType in
      let! nv' := Append nv y in
      appendConverted v elemType rest nv'
  end.

(** Lines 36-73 of [SetField]: the field and the value that line 74
    stores, or the error returned before it. *)
Definition SetField_value (i : Info) (column : string) (value : GoValue)
    : result error (string * GoType * Value) :=
  match fields i !! column with
  | None => Err (ErrColumnNotFound column)
  | Some fieldName =>
      let! fieldValue := fieldOf i fieldName in
      let v := ValueOf value in
      let! fieldType := Value_Type fieldValue in
      let! valueType :=
        match TypeOf value with
        | Some t => Ok t
        | None => Panic "reflect: nil type passed to Type.AssignableTo"
        end in
      if negb (AssignableTo fieldType valueType) then
        let! v :=
          if bool_decide (Value_Kind fieldValue = Ptr) then
            if bool_decide (Value_Kind v = Ptr)
               && AssignableTo fieldType reflect_Value
            then Value_Elem v
            else
              let schema := Column (table i) column in
              let! native := OvsToNative schema value in
              Ok (ValueOf native)
          else Ok v in
        let! vType := Value_Type v in
        if ConvertibleTo vType fieldType then
          let! v' := Value_Convert v fieldType in
          Ok (fieldName, fieldType, v')
        else if bool_decide (Value_Kind fieldValue = Slice) then
          let! vElem := Elem vType in
          let! fElem := Elem fieldType in
          if negb (ConvertibleTo vElem fElem) then
            Err (ErrElemNotConvertible column value fieldName fieldType)
          else
            let nv := Zero fieldType in
            let! n := Value_Len v in
            let! nv' := appendConverted v fElem (seq 0 n) nv in
            Ok (fieldName, fieldType, nv')
        else Err (ErrNotAssignable column value fieldName fieldType)
      else Ok (fieldName, fieldType, v)
  end.

Definition SetField (i : Info) (column : string) (value : GoValue)
    : result error unit * Info :=
  match SetField_value i column value with
  | Ok (fieldName, fieldType, v) => Value_Set i fieldName fieldType v
  | Err e => (Err e, i)
  | Panic m => (Panic m, i)
  end.

(** The loop of [ColumnByPtr] over the fields of the record type. *)
Fixpoint columnAtOffset (i : Info) (offset : Z) (fs : list StructField)
    : result error string :=
  match fs with
  | [] => Err ErrNotInStruct
  | f :: rest =>
      if bool_decide (Offset f = offset) then
        let column := Tag f in
        match fields i !! column with
        | None => Err ErrNoColumnInfo
        | Some _ => Ok column
        end
      else columnAtOffset i offset rest
  end.

Definition ColumnByPtr (i : Info) (fieldPtr : GoValue) : result error string :=
  let fieldPtrVal := ValueOf fieldPtr in
  if negb (bool_decide (Value_Kind fieldPtrVal = Ptr)) then
    Err (NewErrWrongType "ColumnByPointer" "pointer to a field in the struct"
           fieldPtr)
  else
    let! p := Value_Pointer fieldPtrVal in
    let! q := Value_Pointer (ValueOf (obj i)) in
    let offset := (p - q) mod 2 ^ 64 in
    let! ptrType :=
      match TypeOf (obj i) with
      | Some t => Ok t
      | None => Panic "runtime error: invalid memory address or nil pointer dereference"
      end in
    let! objType := Elem ptrType in
    let! fs := Fields objType in
    columnAtOffset i offset fs.

(** The inner loop of [getValidIndexes]: [true] when every column of the
    group passes, [false] when the group is left by [continue OUTER]. *)
Fixpoint validIndex (i : Info) (idx : list string) : result error bool :=
  match idx with
  | [] => Ok true
  | col :: rest =>
      if negb (hasColumn i col) then Ok false
      else
        match Column (table i) col with
        | None => Ok false
        | Some columnSchema =>
            let! field := FieldByColumn i col in
            if negb (Value_IsValid (ValueOf field))
               || IsDefaultValue columnSchema field
            then Ok false
            else validIndex i rest
        end
  end.

Fixpoint validIndexesFrom (i : Info) (possibleIndexes validIndexes : list (list string))
    : result error (list (list string)) :=
  match possibleIndexes with
  | [] => Ok validIndexes
  | idx :: rest =>
      let! ok := validIndex i idx in
      validIndexesFrom i rest
        (if ok then (validIndexes ++ [idx])%list else validIndexes)
  end.

Definition getValidIndexes (i : Info) : result error (list (list string)) :=
  let possibleIndexes := (["_uuid"] :: Indexes (table i)) in
  validIndexesFrom i possibleIndexes [].

(** [s.Elem().Kind() == k], for a type [s] that has an element type. *)
Definition elemKindIs (s : GoType) (k : Kind) : bool :=
  match Elem (E := unit) s with
  | Ok e => bool_decide (kindOf e = k)
  | _ => false
  end.

(** The schema-based type check of lines 163-179: [true] when the field is
    accepted. *)
Definition typeCheck (expType fieldType : GoType) : bool :=
  if bool_decide (kindOf expType = Slice) && elemKindIs expType String then
    true
  else if bool_decide (kindOf expType = String)
          && bool_decide (kindOf fieldType = String) then
    true
  else if bool_decide (kindOf expType = Ptr) && elemKindIs expType String
          && bool_decide (kindOf fieldType = Ptr)
          && elemKindIs fieldType String then
    true
  else negb (bool_decide (expType <> fieldType)).

(** The loop of [NewInfo] over the fields of the record type. *)
Fixpoint mapFields (tbl : TableSchema) (objType : GoType)
    (fs : list StructField) (m : gmap string string)
    : result error (gmap string string) :=
  match fs with
  | [] => Ok m
  | field :: rest =>
      let colName := Tag field in
      if bool_decide (colName = "") then mapFields tbl objType rest m
      else
        match Column tbl colName with
        | None =>
            Err (ErrMapper objType (Name field) (Typ field) colName
                   ColumnMissing)
        | Some column =>
            let expType := NativeType column in
            if typeCheck expType (Typ field) then
              mapFields tbl objType rest (<[colName := Name field]> m)
            else
              Err (ErrMapper objType (Name field) (Typ field) colName
                     (WrongType expType))
        end
  end.

Definition NewInfo (tbl : TableSchema) (o : GoValue) : result error Info :=
  let objPtrVal := ValueOf o in
  let! objPtrType := Value_Type objPtrVal in
  if negb (bool_decide (kindOf objPtrType = Ptr)) then
    Err (NewErrWrongType "NewMapperInfo" "pointer to a struct" o)
  else
    let! objVal := Indirect objPtrVal in
    if negb (bool_decide (Value_Kind objVal = Struct)) then
      Err (NewErrWrongType "NewMapperInfo" "pointer to a struct" o)
    else
      let! objType := Value_Type objVal in
      let! fs := Fields objType in
      let! m := mapFields tbl objType fs ∅ in
      Ok (mkInfo m o tbl).

(** ** The record behind an Info, and the invariant of an Info *)

(** The fields of the record type [o] points to, and the values they
    hold. *)
Definition recordFields (o : GoValue) : list StructField :=
  match o with
  | VPtr pt _ _ =>
      match Elem (E := unit) pt with
      | Ok e => match Fields (E := unit) e with Ok fs => fs | _ => [] end
      | _ => []
      end
  | _ => []
  end.

Definition recordValues (o : GoValue) : list GoValue :=
  match o with
  | VPtr _ _ (Some (VStruct _ vals)) => vals
  | _ => []
  end.

Definition recordAddr (o : GoValue) : Z :=
  match o with
  | VPtr _ a _ => a
  | _ => 0
  end.

(** [o] is a pointer to a struct value as Go builds them: a pointer type
    to a struct type whose field names are distinct, one value per field,
    and the record lies within the address space. *)
Definition wfRecord (o : GoValue) : bool :=
  match o with
  | VPtr pt a (Some (VStruct st vals)) =>
      match underlying pt with
      | TPtr e =>
          bool_decide (e = st)
          && bool_decide (kindOf e = Struct)
          && bool_decide (NoDup (Name <$> recordFields o))
          && bool_decide (length vals = length (recordFields o))
          && forallb (fun f => (0 <=? Offset f) && (Offset f <? 2 ^ 64))
               (recordFields o)
      | _ => false
      end
  | _ => false
  end.

(** The map from column to field name that the tags of [fs] give: a later
    field overwrites an earlier one of the same tag. *)
Definition addField (m : gmap string string) (f : StructField) : gmap string string :=
  if bool_decide (Tag f = "") then m else <[Tag f := Name f]> m.

Definition tagMap (fs : list StructField) : gmap string string :=
  fold_left addField fs ∅.

(** A tagged field is accepted by [NewInfo] when its column is in the
    schema and it passes the type check; an untagged one always is. *)
Definition fieldOK (tbl : TableSchema) (f : StructField) : bool :=
  if bool_decide (Tag f = "") then true
  else
    match Column tbl (Tag f) with
    | None => false
    | Some column => typeCheck (NativeType column) (Typ f)
    end.

(** The invariant of an Info: its object is a record, its map is the one
    the tags of the record give, and every tag names a column of the
    table. *)
Definition InfoInv (i : Info) : Prop :=
  wfRecord (obj i) = true
  /\ fields i = tagMap (recordFields (obj i))
  /\ Forall (fun f => Tag f = "" \/ is_Some (Column (table i) (Tag f)))
       (recordFields (obj i)).

(** Column [col] has a non-default value on the record of [i]. *)
Definition nonDefault (i : Info) (col : string) : bool :=
  match FieldByColumn i col, Column (table i) col with
  | Ok v, Some columnSchema =>
      Value_IsValid (ValueOf v) && negb (IsDefaultValue columnSchema v)
  | _, _ => false
  end.

(** The first field of [fs] at [offset]. *)
Definition fieldAt (offset : Z) (fs : list StructField) : option StructField :=
  List.find (fun f => bool_decide (Offset f = offset)) fs.

(** A pointer to the field of index [j] of the record [o]. *)
Definition fieldPtr (o : GoValue) (j : nat) : GoValue :=
  match recordFields o !! j with
  | Some f =>
      VPtr (TPtr (Typ f)) (recordAddr o + Offset f) (recordValues o !! j)
  | None => VNil
  end.

(** A value that [SetField] stores in a field of type [t]. *)
Definition sampleOf (t : GoType) : GoValue :=
  if bool_decide (kindOf t = Interface) then VBool TBool true else zeroOf t.

(** The Info after the field of index [j] of its record has been given
    the value [c]. *)
Definition withField (i : Info) (j : nat) (c : GoValue) : Info :=
  match obj i with
  | VPtr pt a (Some (VStruct st vals)) =>
      mkInfo (fields i) (VPtr pt a (Some (VStruct st (<[j := c]> vals))))
        (table i)
  | _ => i
  end.

(** What a field of type [t] holds once the content [c] is stored in it. *)
Definition contentAt (t : GoType) (c : GoValue) : GoValue :=
  if bool_decide (kindOf t = Interface) then c else retype c t.

(** What an element [c] of type [e] becomes in a slice of element type
    [fe]: its conversion, as [reflect.Append] stores it. *)
Definition convertElem (e fe : GoType) (c : GoValue) : GoValue :=
  match Value_Convert (E := error) (MkValue e c) fe with
  | Ok (MkValue _ x) => contentAt fe x
  | _ => VNil
  end.

(** The index of the field that a column is mapped to, and the type of
    that field. *)
Definition fieldSlot (i : Info) (column : string) : option nat :=
  match fields i !! column with
  | None => None
  | Some n => fieldIndex n (recordFields (obj i))
  end.

Definition fieldType (i : Info) (column : string) : option GoType :=
  match fieldSlot i column with
  | None => None
  | Some j => Typ <$> recordFields (obj i) !! j
  end.

(** Every field of the record holds a value of its type; a field of
    interface type holds any value. *)
Definition typedRecord (o : GoValue) : Prop :=
  Forall2 (fun f v => kindOf (Typ f) = Interface \/ TypeOf v = Some (Typ f))
    (recordFields o) (recordValues o).

(** A reflect.Value that holds something: at a type that is no interface
    its content is not the nil interface. *)
Definition holdsValue (v : Value) : Prop :=
  match v with
  | ZeroValue => False
  | MkValue t x => kindOf t = Interface \/ x <> VNil
  end.

(** The struct type of the record that [o] points to. *)
Definition recordType (o : GoValue) : GoType :=
  match o with
  | VPtr pt _ _ =>
      match Elem (E := unit) pt with
      | Ok e => e
      | _ => TInterface
      end
  | _ => TInterface
  end.

(** The reason that NewInfo gives when it refuses a tagged field. *)
Definition reasonOf (tbl : TableSchema) (f : StructField) : MapperReason :=
  match Column tbl (Tag f) with
  | None => ColumnMissing
  | Some column => WrongType (NativeType column)
  end.

(** The Infos a program can hold: the result of NewInfo on a record, and
    the same Info after each SetField. *)
Inductive reachable : Info -> Prop :=
  | reach_NewInfo tbl o i :
      wfRecord o = true -> NewInfo tbl o = Ok i -> reachable i
  | reach_SetField i column value :
      reachable i -> reachable (snd (SetField i column value)).

End mapper.

(** * A concrete schema and record, for the examples

    An implementation of the ovsdb interface over a table given by the
    native types of its columns and its index groups: [OvsToNative] accepts
    a value that already has the column's native type and rejects any
    other, a value is a default when it is the zero of its type. *)

Record ExampleTable : Type := mkTable {
  exColumns : gmap string GoType;
  exIndexes : list (list string)
}.

Definition exIsDefault (v : GoValue) : bool :=
  match v with
  | VNil => true
  | VBool _ b => negb b
  | VInt _ n => n =? 0
  | VFloat _ f => match f with S754_zero _ => true | _ => false end
  | VString _ s => bool_decide (s = "")
  | VPtr _ _ g => match g with None => true | Some _ => false end
  | VSlice _ l => match default [] l with [] => true | _ => false end
  | VMap _ l => match default [] l with [] => true | _ => false end
  | VStruct _ _ => false
  end.

Definition exOvsToNative (schema : option GoType) (v : GoValue)
    : result error GoValue :=
  match schema with
  | None => Panic "runtime error: invalid memory address or nil pointer dereference"
  | Some t =>
      if bool_decide (TypeOf v = Some t) then Ok v
      else Err (NewErrWrongType "OvsToNative" "native type" v)
  end.

#[local] Instance exOvsdb : Ovsdb := {|
  TableSchema := ExampleTable;
  ColumnSchema := GoType;
  Indexes := exIndexes;
  Column := fun t name => exColumns t !! name;
  NativeType := fun c => c;
  OvsToNative := exOvsToNative;
  IsDefaultValue := fun _ v => exIsDefault v
|}.

(** The table Bridge: name and datapath_type are strings, ports a set of
    strings, fail_mode an optional string, flood_vlans a set of integers;
    it is indexed by name. *)
Definition bridgeTable : ExampleTable :=
  mkTable
    (list_to_map
       [("_uuid", TString); ("name", TString); ("datapath_type", TString);
        ("ports", TSlice TString); ("fail_mode", TPtr TString);
        ("flood_vlans", TSlice TInt)])
    [["name"]; ["name"; "datapath_type"]].

Definition FailMode : GoType := TDefined "main" "BridgeFailMode" TString.

(** [type Bridge struct { UUID string `ovsdb:"_uuid"`; Name string
    `ovsdb:"name"`; Ports []string `ovsdb:"ports"`; FailMode *BridgeFailMode
    `ovsdb:"fail_mode"`; Comment string }]. *)
Definition Bridge : GoType :=
  TDefined "main" "Bridge"
    (TStruct (FCons "UUID" TString "_uuid"
             (FCons "Name" TString "name"
             (FCons "Ports" (TSlice TString) "ports"
             (FCons "FailMode" (TPtr FailMode) "fail_mode"
             (FCons "Comment" TString "" FNil)))))).

Definition bridgeAt (a : Z) (vals : list GoValue) : GoValue :=
  VPtr (TPtr Bridge) a (Some (VStruct Bridge vals)).

(** [&Bridge{UUID: "u1", Name: "br0"}], at address 4096. *)
Definition br0 : GoValue :=
  bridgeAt 4096
    [VString TString "u1"; VString TString "br0"; VSlice (TSlice TString) None;
     VPtr (TPtr FailMode) 0 None; VString TString ""].

(** The Info of [br0]. *)
Definition br0Info : Info :=
  mkInfo
    (list_to_map
       [("_uuid", "UUID"); ("name", "Name"); ("ports", "Ports");
        ("fail_mode", "FailMode")])
    br0 bridgeTable.

(** [type PortCount struct { Ports int `ovsdb:"ports"` }]: an int field
    tagged with the column ports, a set of strings. *)
Definition PortCount : GoType :=
  TDefined "main" "PortCount" (TStruct (FCons "Ports" TInt "ports" FNil)).

Definition portCount : GoValue :=
  VPtr (TPtr PortCount) 4096 (Some (VStruct PortCount [VInt TInt 3])).




Definition DatapathType : GoType := TDefined "main" "DatapathType" TString.

Definition PortName : GoType := TDefined "main" "PortName" TString.

(** [type Switch struct { Type DatapathType `ovsdb:"datapath_type"`;
    Ports []PortName `ovsdb:"ports"` }]: an enum field and a field that is
    a set of enums. *)
Definition Switch : GoType :=
  TDefined "main" "Switch"
    (TStruct (FCons "Type" DatapathType "datapath_type"
             (FCons "Ports" (TSlice PortName) "ports" FNil))).

(** [&Switch{Type: "system"}], at address 4096. *)
Definition sw0 : GoValue :=
  VPtr (TPtr Switch) 4096
    (Some (VStruct Switch
             [VString DatapathType "system"; VSlice (TSlice PortName) None])).

Definition sw0Info : Info :=
  mkInfo (list_to_map [("datapath_type", "Type"); ("ports", "Ports")])
    sw0 bridgeTable.

(** [type Renamed struct { Old string `ovsdb:"name"`; New string
    `ovsdb:"name"` }]: two fields with the same tag. *)
Definition Renamed : GoType :=
  TDefined "main" "Renamed"
    (TStruct (FCons "Old" TString "name" (FCons "New" TString "name" FNil))).

Definition renamed : GoValue :=
  VPtr (TPtr Renamed) 4096
    (Some (VStruct Renamed [VString TString "old"; VString TString "new"])).

(** Another Bridge, [&Bridge{Name: "br1"}], at address 8192. *)
Definition br1 : GoValue :=
  bridgeAt 8192
    [VString TString ""; VString TString "br1"; VSlice (TSlice TString) None;
     VPtr (TPtr FailMode) 0 None; VString TString ""].

Definition br1Info : Info :=
  mkInfo
    (list_to_map
       [("_uuid", "UUID"); ("name", "Name"); ("ports", "Ports");
        ("fail_mode", "FailMode")])
    br1 bridgeTable.

(** A reachable Info, by evaluation of NewInfo on the record. *)
Ltac by_NewInfo tbl o :=
  apply (reach_NewInfo (ovsdb := exOvsdb) tbl o); vm_compute; reflexivity.

(** * Properties *)

(** ** The type check of NewInfo *)

Section typeCheck_facts.

(** A column whose native type is a slice of strings accepts a field of
    any type: the first branch of the check never looks at the field. *)
Lemma typeCheck_string_slice (fieldType : GoType) :
  typeCheck (TSlice TString) fieldType = true.
Proof. reflexivity. Qed.

Lemma typeCheck_exact (t : GoType) : typeCheck t t = true.
Proof.
  unfold typeCheck.
  repeat (case_match; try reflexivity).
  apply negb_true_iff, bool_decide_eq_false. intros H'. now apply H'.
Qed.

End typeCheck_facts.

(** ** Package reflect returns no error: it gives a result or panics *)

Section reflect_facts.
Context {E : Type}.

Lemma Elem_not_Err t (e : E) : Elem t <> Err e.
Proof. unfold Elem. now destruct (underlying t). Qed.

Lemma Fields_not_Err t (e : E) : Fields t <> Err e.
Proof. unfold Fields. now destruct (underlying t). Qed.

Lemma Value_Type_not_Err v (e : E) : Value_Type v <> Err e.
Proof. now destruct v. Qed.

Lemma Value_Interface_not_Err v (e : E) : Value_Interface v <> Err e.
Proof. now destruct v. Qed.

Lemma Value_Elem_not_Err v (e : E) : Value_Elem v <> Err e.
Proof.
  destruct v as [|t c]; [discriminate|]. unfold Value_Elem.
  destruct (kindOf t); try discriminate.
  destruct c as [| | | | |? ? [?|]| | |]; try discriminate.
  now destruct (underlying t).
Qed.

Lemma Value_FieldByName_not_Err v name (e : E) :
  Value_FieldByName v name <> Err e.
Proof.
  destruct v as [|t c]; [discriminate|]. unfold Value_FieldByName.
  destruct c; try discriminate.
  destruct (Fields t) as [fs| |] eqn:Hfs; simpl; try discriminate.
  - destruct (fieldIndex name fs); [|discriminate].
    now destruct (fs !! n), (fields0 !! n).
  - now apply Fields_not_Err in Hfs.
Qed.

Lemma Value_Pointer_not_Err v (e : E) : Value_Pointer v <> Err e.
Proof. destruct v as [|t c]; [discriminate|]. now destruct c. Qed.

Lemma Value_Len_not_Err v (e : E) : Value_Len v <> Err e.
Proof. destruct v as [|t c]; [discriminate|]. now destruct c. Qed.

Lemma Value_Index_not_Err v k (e : E) : Value_Index v k <> Err e.
Proof.
  destruct v as [|t c]; [discriminate|]. unfold Value_Index.
  destruct c; try discriminate.
  destruct (Elem t) eqn:He; simpl; try discriminate.
  - now destruct (default [] elems !! k).
  - now apply Elem_not_Err in He.
Qed.

Lemma Value_Convert_not_Err v t (e : E) : Value_Convert v t <> Err e.
Proof.
  destruct v as [|src c]; [discriminate|]. unfold Value_Convert.
  destruct (convertOp t src) as [[]|]; destruct c; discriminate.
Qed.

Lemma assignTo_not_Err x dst (e : E) : assignTo x dst <> Err e.
Proof.
  destruct x as [|t c]; [discriminate|]. unfold assignTo.
  now destruct (directlyAssignable dst t || implements dst t).
Qed.

Lemma Append_not_Err s x (e : E) : Append s x <> Err e.
Proof.
  destruct s as [|t c]; [discriminate|]. unfold Append.
  destruct c; try discriminate.
  destruct (Elem t) eqn:He; simpl; try discriminate.
  - destruct (assignTo x a) as [[|]| |] eqn:Ha; simpl; try discriminate.
    now apply assignTo_not_Err in Ha.
  - now apply Elem_not_Err in He.
Qed.

End reflect_facts.

(** ** Field names, tags and the map of an Info *)

Section field_facts.

Lemma fieldIndex_Some name fs j :
  fieldIndex name fs = Some j ->
  exists f, fs !! j = Some f /\ Name f = name.
Proof.
  revert j. induction fs as [|f fs IH]; intros j; simpl; [discriminate|].
  case_bool_decide as Hn.
  - intros [= <-]. exists f. split; [reflexivity | exact Hn].
  - destruct (fieldIndex name fs) as [k|] eqn:Hk; simpl; [|discriminate].
    intros [= <-]. destruct (IH k eq_refl) as (g & Hg & Hname).
    exists g. split; [exact Hg | exact Hname].
Qed.

Lemma fieldIndex_None name fs :
  fieldIndex name fs = None -> ~ In name (Name <$> fs).
Proof.
  induction fs as [|f fs IH]; simpl; [tauto|].
  case_bool_decide as Hn; [discriminate|].
  destruct (fieldIndex name fs) eqn:Hk; simpl; [discriminate|].
  intros _ [H|H]; [congruence | now apply IH].
Qed.

(** With distinct names, the field of a given name is found where it is. *)
Lemma fieldIndex_NoDup fs j f :
  NoDup (Name <$> fs) -> fs !! j = Some f -> fieldIndex (Name f) fs = Some j.
Proof.
  revert j. induction fs as [|g fs IH]; intros j Hnd Hj; [discriminate|].
  simpl in Hnd. apply NoDup_cons in Hnd as [Hg Hnd].
  destruct j as [|j]; simpl in *.
  - injection Hj as ->. now rewrite bool_decide_eq_true_2.
  - rewrite bool_decide_eq_false_2.
    + now rewrite (IH j Hnd Hj).
    + intros Heq. apply Hg. rewrite Heq.
      apply list_elem_of_fmap. exists f. split; [reflexivity|].
      now apply list_elem_of_lookup_2 with j.
Qed.

Lemma fold_addField_snoc fs f m :
  fold_left addField (fs ++ [f]) m = addField (fold_left addField fs m) f.
Proof. now rewrite fold_left_app. Qed.

(** Every entry of the map comes from a tagged field of that name. *)
Lemma tagMap_lookup_Some fs c n :
  tagMap fs !! c = Some n ->
  c <> "" /\ exists f, f ∈ fs /\ Tag f = c /\ Name f = n.
Proof.
  unfold tagMap. induction fs as [|f fs IH] using rev_ind; simpl.
  - rewrite lookup_empty. discriminate.
  - rewrite fold_addField_snoc. unfold addField at 1.
    case_bool_decide as Ht.
    + intros H. destruct (IH H) as (Hc & g & Hg & Hgt & Hgn).
      split; [exact Hc|]. exists g. set_solver.
    + rewrite lookup_insert. case_decide as Hc.
      * intros [= <-]. subst c. split; [exact Ht|]. exists f. set_solver.
      * intros H. destruct (IH H) as (Hc' & g & Hg & Hgt & Hgn).
        split; [exact Hc'|]. exists g. set_solver.
Qed.

(** Every tagged field has its column in the map. *)
Lemma tagMap_lookup_tagged fs f :
  f ∈ fs -> Tag f <> "" -> is_Some (tagMap fs !! Tag f).
Proof.
  unfold tagMap. induction fs as [|g fs IH] using rev_ind; intros Hf Ht.
  - set_solver.
  - rewrite fold_addField_snoc. unfold addField at 1.
    apply elem_of_app in Hf as [Hf|Hf].
    + case_bool_decide; [now apply IH|].
      rewrite lookup_insert. case_decide; [eauto | now apply IH].
    + apply list_elem_of_singleton in Hf as ->.
      rewrite bool_decide_eq_false_2 by exact Ht.
      rewrite lookup_insert_eq. eauto.
Qed.

(** The columns of the map are exactly the tags of the fields. *)
Lemma tagMap_dom fs c :
  is_Some (tagMap fs !! c) <-> c <> "" /\ exists f, f ∈ fs /\ Tag f = c.
Proof.
  split.
  - intros [n Hn]. apply tagMap_lookup_Some in Hn as (Hc & f & Hf & Ht & _).
    eauto.
  - intros (Hc & f & Hf & <-). now apply tagMap_lookup_tagged.
Qed.

End field_facts.

(** ** NewInfo *)

Section NewInfo_facts.
Context {ovsdb : Ovsdb}.

(** The loop of NewInfo succeeds exactly when every field is accepted, and
    then it has added the tagged fields to the map. *)
Lemma mapFields_Ok tbl objType fs m :
  forallb (fieldOK tbl) fs = true ->
  mapFields tbl objType fs m = Ok (fold_left addField fs m).
Proof.
  revert m. induction fs as [|f fs IH]; intros m; simpl; [reflexivity|].
  rewrite andb_true_iff. intros [Hf Hfs].
  unfold fieldOK in Hf. unfold addField at 2.
  case_bool_decide; [now apply IH|].
  destruct (Column tbl (Tag f)); [|discriminate].
  rewrite Hf. now apply IH.
Qed.

Lemma mapFields_Err tbl objType fs m :
  forallb (fieldOK tbl) fs = false ->
  exists f reason,
    f ∈ fs /\ Tag f <> ""
    /\ mapFields tbl objType fs m
       = Err (ErrMapper objType (Name f) (Typ f) (Tag f) reason).
Proof.
  revert m. induction fs as [|f fs IH]; intros m; simpl; [discriminate|].
  rewrite andb_false_iff. unfold fieldOK at 1.
  case_bool_decide as Ht.
  - intros [?|Hfs]; [discriminate|].
    destruct (IH m Hfs) as (g & r & Hg & Hgt & Hgr).
    exists g, r. split; [set_solver | split; [exact Hgt | exact Hgr]].
  - destruct (Column tbl (Tag f)) as [column|] eqn:Hcol.
    + destruct (typeCheck (NativeType column) (Typ f)) eqn:Hck.
      * intros [?|Hfs]; [discriminate|].
        destruct (IH (<[Tag f:=Name f]> m) Hfs) as (g & r & Hg & Hgt & Hgr).
        exists g, r. split; [set_solver | split; [exact Hgt | exact Hgr]].
      * intros _. exists f, (WrongType (NativeType column)).
        split; [set_solver | split; [exact Ht | reflexivity]].
    + intros _. exists f, ColumnMissing.
      split; [set_solver | split; [exact Ht | reflexivity]].
Qed.

(** What a well-formed record is made of. *)
Lemma wfRecord_inv o :
  wfRecord o = true ->
  exists pt a e fl vals,
    o = VPtr pt a (Some (VStruct e vals))
    /\ underlying pt = TPtr e
    /\ underlying e = TStruct fl
    /\ recordFields o = layoutFrom fl 0
    /\ NoDup (Name <$> recordFields o)
    /\ length vals = length (recordFields o)
    /\ Forall (fun f => 0 <= Offset f < 2 ^ 64) (recordFields o).
Proof.
  destruct o as [| | | | |pt a [[| | | | | | | |st vals]|]| | |]; try discriminate.
  unfold wfRecord. destruct (underlying pt) as [| | | | | |e| | |] eqn:Hpt;
    try discriminate.
  rewrite !andb_true_iff, !bool_decide_eq_true.
  intros ((((-> & Hk) & Hnd) & Hlen) & Hoff).
  assert (exists fl, underlying st = TStruct fl) as [fl Hfl].
  { unfold kindOf in Hk. destruct (underlying st); try discriminate. eauto. }
  exists pt, a, st, fl, vals.
  assert (recordFields (VPtr pt a (Some (VStruct st vals))) = layoutFrom fl 0)
    as Hrf.
  { unfold recordFields, Elem, Fields. now rewrite Hpt, Hfl. }
  repeat split; try assumption.
  apply Forall_forall. intros f Hf.
  rewrite forallb_forall in Hoff. apply list_elem_of_In in Hf.
  specialize (Hoff f Hf).
  apply andb_true_iff in Hoff as [H1 H2]. lia.
Qed.

(** On a well-formed record, NewInfo is its loop over the fields. *)
Lemma NewInfo_record tbl o :
  wfRecord o = true ->
  exists objType,
    NewInfo tbl o
    = (let! m := mapFields tbl objType (recordFields o) ∅ in
       Ok (mkInfo m o tbl)).
Proof.
  intros Hwf.
  destruct (wfRecord_inv o Hwf) as (pt & a & e & fl & vals & -> & Hpt & He & Hrf & _).
  exists e. rewrite Hrf.
  unfold NewInfo, ValueOf, Indirect; simpl.
  assert (kindOf pt = Ptr) as Hk by (unfold kindOf; now rewrite Hpt).
  assert (kindOf e = Struct) as Hke by (unfold kindOf; now rewrite He).
  rewrite Hk; simpl. rewrite Hpt. unfold atType.
  rewrite Hke; simpl. rewrite Hke; simpl.
  unfold Fields. rewrite He; simpl. reflexivity.
Qed.

(** NewInfo succeeds on a record exactly when every tagged field has a
    column and passes the type check; its map is then the one the tags
    give. *)
Lemma NewInfo_Ok tbl o :
  wfRecord o = true ->
  forallb (fieldOK tbl) (recordFields o) = true ->
  NewInfo tbl o = Ok (mkInfo (tagMap (recordFields o)) o tbl).
Proof.
  intros Hwf Hok. destruct (NewInfo_record tbl o Hwf) as [objType ->].
  now rewrite (mapFields_Ok _ _ _ _ Hok).
Qed.

Lemma NewInfo_Err tbl o :
  wfRecord o = true ->
  forallb (fieldOK tbl) (recordFields o) = false ->
  exists objType f reason,
    f ∈ recordFields o /\ Tag f <> ""
    /\ NewInfo tbl o = Err (ErrMapper objType (Name f) (Typ f) (Tag f) reason).
Proof.
  intros Hwf Hok. destruct (NewInfo_record tbl o Hwf) as [objType ->].
  destruct (mapFields_Err tbl objType _ ∅ Hok) as (f & r & Hf & Ht & ->).
  exists objType, f, r. repeat split; assumption.
Qed.

Lemma NewInfo_Ok_inv tbl o i :
  wfRecord o = true ->
  NewInfo tbl o = Ok i ->
  forallb (fieldOK tbl) (recordFields o) = true
  /\ i = mkInfo (tagMap (recordFields o)) o tbl.
Proof.
  intros Hwf Hi.
  destruct (forallb (fieldOK tbl) (recordFields o)) eqn:Hok.
  - rewrite (NewInfo_Ok tbl o Hwf Hok) in Hi. injection Hi as <-. now split.
  - destruct (NewInfo_Err tbl o Hwf Hok) as (t & f & r & _ & _ & He).
    congruence.
Qed.

(** NewInfo establishes the invariant. *)
Lemma NewInfo_InfoInv tbl o i :
  wfRecord o = true -> NewInfo tbl o = Ok i -> InfoInv i.
Proof.
  intros Hwf Hi. destruct (NewInfo_Ok_inv tbl o i Hwf Hi) as [Hok ->].
  unfold InfoInv; simpl. repeat split; try assumption.
  apply Forall_forall. intros f Hf.
  rewrite forallb_forall in Hok. apply list_elem_of_In in Hf.
  specialize (Hok f Hf).
  unfold fieldOK in Hok. case_bool_decide; [now left | right].
  destruct (Column tbl (Tag f)); [eauto | discriminate].
Qed.

End NewInfo_facts.

(** ** Reading a field *)

Section access_facts.
Context {ovsdb : Ovsdb}.

(** The field of a given name of a well-formed record. *)
Lemma fieldOf_record i name :
  wfRecord (obj i) = true ->
  fieldOf i name
  = match fieldIndex name (recordFields (obj i)) with
    | None => Ok ZeroValue
    | Some j =>
        match recordFields (obj i) !! j, recordValues (obj i) !! j with
        | Some f, Some c => Ok (MkValue (Typ f) c)
        | _, _ => Panic "reflect: ill-typed struct"
        end
    end.
Proof.
  intros Hwf.
  destruct (wfRecord_inv _ Hwf) as (pt & a & e & fl & vals & Ho & Hpt & He & Hrf & _).
  rewrite Hrf. unfold fieldOf. rewrite Ho. unfold ValueOf; simpl.
  assert (kindOf pt = Ptr) as Hk by (unfold kindOf; now rewrite Hpt).
  assert (kindOf e = Struct) as Hke by (unfold kindOf; now rewrite He).
  rewrite Hk, Hpt. unfold atType. rewrite Hke; simpl.
  unfold Fields. rewrite He; simpl. reflexivity.
Qed.

(** A column of the map leads to a field that carries it as its tag, and
    to the value that field holds. *)
Lemma mapped_column i c n :
  InfoInv i ->
  fields i !! c = Some n ->
  exists j f v,
    recordFields (obj i) !! j = Some f
    /\ Name f = n /\ Tag f = c /\ c <> ""
    /\ fieldIndex n (recordFields (obj i)) = Some j
    /\ recordValues (obj i) !! j = Some v
    /\ fieldOf i n = Ok (MkValue (Typ f) v).
Proof.
  intros (Hwf & Hfields & _) Hc.
  rewrite Hfields in Hc.
  apply tagMap_lookup_Some in Hc as (Hne & f & Hf & Ht & Hn).
  apply list_elem_of_lookup in Hf as [j Hj].
  destruct (wfRecord_inv _ Hwf) as (pt & a & e & fl & vals & Ho & _ & _ & _ & Hnd & Hlen & _).
  assert (fieldIndex n (recordFields (obj i)) = Some j) as Hidx.
  { rewrite <- Hn. now apply fieldIndex_NoDup. }
  assert (is_Some (recordValues (obj i) !! j)) as [v Hv].
  { apply lookup_lt_is_Some. rewrite Ho in *. simpl. rewrite Hlen.
    now apply lookup_lt_Some with f. }
  exists j, f, v. repeat split; try assumption.
  rewrite (fieldOf_record i n Hwf), Hidx, Hj, Hv. reflexivity.
Qed.

Lemma FieldByColumn_mapped i c n :
  InfoInv i ->
  fields i !! c = Some n ->
  exists j f v,
    recordFields (obj i) !! j = Some f
    /\ Tag f = c /\ c <> ""
    /\ recordValues (obj i) !! j = Some v
    /\ FieldByColumn i c = Ok v.
Proof.
  intros Hinv Hc.
  destruct (mapped_column i c n Hinv Hc)
    as (j & f & v & Hj & _ & Ht & Hne & _ & Hv & Hfo).
  exists j, f, v. repeat split; try assumption.
  unfold FieldByColumn. rewrite Hc, Hfo. reflexivity.
Qed.

Lemma FieldByColumn_unmapped i c :
  fields i !! c = None -> FieldByColumn i c = Err (ErrColumnNotFound c).
Proof. intros Hc. unfold FieldByColumn. now rewrite Hc. Qed.

Lemma hasColumn_true i c : hasColumn i c = true <-> is_Some (fields i !! c).
Proof.
  unfold hasColumn. destruct (fields i !! c); split; intros H;
    try reflexivity; try discriminate; eauto.
  now destruct H.
Qed.

(** FieldByColumn returns an error only for a column that is not in the
    map. *)
Lemma FieldByColumn_Err i c e :
  FieldByColumn i c = Err e -> fields i !! c = None.
Proof.
  unfold FieldByColumn, fieldOf.
  destruct (fields i !! c) as [n|]; [|reflexivity].
  intros H. exfalso. revert H.
  destruct (Value_Elem (ValueOf (obj i))) as [s| |] eqn:Hs; simpl.
  - destruct (Value_FieldByName s n) as [f| |] eqn:Hf; simpl.
    + destruct f; discriminate.
    + now apply Value_FieldByName_not_Err in Hf.
    + discriminate.
  - now apply Value_Elem_not_Err in Hs.
  - discriminate.
Qed.

End access_facts.

(** ** Writing a field *)

Section SetField_facts.
Context {ovsdb : Ovsdb}.

Lemma storeField_Ok i name c i' :
  storeField i name c = Ok i' ->
  exists pt a st vals j,
    obj i = VPtr pt a (Some (VStruct st vals))
    /\ fieldIndex name (recordFields (obj i)) = Some j
    /\ i' = mkInfo (fields i)
              (VPtr pt a (Some (VStruct st (<[j := c]> vals)))) (table i).
Proof.
  unfold storeField.
  destruct (obj i) as [| | | | |pt a [[| | | | | | | |st vals]|]| | |] eqn:Ho;
    try discriminate.
  unfold recordFields.
  destruct (Elem pt) as [e| |] eqn:He; simpl; try discriminate.
  assert (Elem (E := unit) pt = Ok e) as ->.
  { revert He. unfold Elem. destruct (underlying pt); congruence. }
  destruct (Fields e) as [fs| |] eqn:Hfs; simpl; try discriminate.
  assert (Fields (E := unit) e = Ok fs) as ->.
  { revert Hfs. unfold Fields. destruct (underlying e); congruence. }
  destruct (fieldIndex name fs) as [j|] eqn:Hj; [|discriminate].
  intros [= <-]. exists pt, a, st, vals, j. repeat split.
Qed.

(** A store changes the value of one field and nothing else. *)
Lemma Value_Set_state i name t x :
  snd (Value_Set i name t x) = i
  \/ exists pt a st vals j c,
       obj i = VPtr pt a (Some (VStruct st vals))
       /\ fieldIndex name (recordFields (obj i)) = Some j
       /\ fst (Value_Set i name t x) = Ok tt
       /\ snd (Value_Set i name t x)
          = mkInfo (fields i)
              (VPtr pt a (Some (VStruct st (<[j := c]> vals)))) (table i).
Proof.
  unfold Value_Set.
  destruct (assignTo x t) as [[|t' c]| |]; simpl; try (now left).
  destruct (storeField i name c) as [i'| |] eqn:Hst; simpl; try (now left).
  right. apply storeField_Ok in Hst as (pt & a & st & vals & j & Ho & Hj & ->).
  exists pt, a, st, vals, j, c. repeat split; assumption.
Qed.

Lemma SetField_state i column value :
  snd (SetField i column value) = i
  \/ exists pt a st vals n j c,
       obj i = VPtr pt a (Some (VStruct st vals))
       /\ fields i !! column = Some n
       /\ fieldIndex n (recordFields (obj i)) = Some j
       /\ fst (SetField i column value) = Ok tt
       /\ snd (SetField i column value)
          = mkInfo (fields i)
              (VPtr pt a (Some (VStruct st (<[j := c]> vals)))) (table i).
Proof.
  unfold SetField.
  destruct (SetField_value i column value) as [[[n t] x]| |] eqn:Hv;
    simpl; try (now left).
  assert (fields i !! column = Some n) as Hn.
  { revert Hv. unfold SetField_value.
    destruct (fields i !! column) as [m|]; [|discriminate].
    intros Hv. f_equal. revert Hv.
    repeat (match goal with
            | |- context [bind ?r _] => destruct r; simpl
            | |- context [if ?b then _ else _] => destruct b; simpl
            end; try discriminate); congruence. }
  destruct (Value_Set_state i n t x)
    as [->|(pt & a & st & vals & j & c & Ho & Hj & Hok & ->)]; [now left|].
  right. exists pt, a, st, vals, n, j, c. repeat split; assumption.
Qed.


Lemma SetField_not_found i column value :
  fields i !! column = None ->
  SetField i column value = (Err (ErrColumnNotFound column), i).
Proof. intros H. unfold SetField, SetField_value. now rewrite H. Qed.

(** SetField keeps the map, the table, the record's type and address, and
    the well-formedness of the record. *)
Lemma SetField_frame i column value :
  let i' := snd (SetField i column value) in
  fields i' = fields i /\ table i' = table i
  /\ recordFields (obj i') = recordFields (obj i)
  /\ recordAddr (obj i') = recordAddr (obj i)
  /\ wfRecord (obj i') = wfRecord (obj i).
Proof.
  simpl.
  destruct (SetField_state i column value)
    as [->|(pt & a & st & vals & n & j & c & Ho & _ & _ & _ & ->)];
    [repeat split|].
  simpl. rewrite Ho. repeat split.
  unfold wfRecord. destruct (underlying pt); try reflexivity.
  now rewrite length_insert.
Qed.

Lemma SetField_InfoInv i column value :
  InfoInv i -> InfoInv (snd (SetField i column value)).
Proof.
  intros (Hwf & Hf & Hc).
  destruct (SetField_frame i column value) as (Ef & Et & Er & _ & Ew).
  unfold InfoInv. rewrite Ef, Et, Er, Ew. repeat split; assumption.
Qed.

Lemma reachable_InfoInv i : reachable i -> InfoInv i.
Proof.
  induction 1 as [tbl o i Hwf Hi|i column value _ IH].
  - exact (NewInfo_InfoInv tbl o i Hwf Hi).
  - now apply SetField_InfoInv.
Qed.

End SetField_facts.

(** ** The valid indexes *)

Section getValidIndexes_facts.
Context {ovsdb : Ovsdb}.

Lemma nonDefault_true i col :
  nonDefault i col = true
  <-> exists v columnSchema,
        FieldByColumn i col = Ok v
        /\ Column (table i) col = Some columnSchema
        /\ v <> VNil
        /\ IsDefaultValue columnSchema v = false.
Proof.
  unfold nonDefault. split.
  - destruct (FieldByColumn i col) as [v| |]; try discriminate.
    destruct (Column (table i) col) as [cs|]; [|discriminate].
    rewrite andb_true_iff, negb_true_iff. intros [Hv Hd].
    exists v, cs. repeat split; try assumption.
    intros ->. discriminate.
  - intros (v & cs & -> & -> & Hv & Hd). rewrite Hd.
    destruct v; try reflexivity. now destruct Hv.
Qed.

(** The inner loop decides whether every column of the group has a
    non-default value. *)
Lemma validIndex_forallb i idx :
  InfoInv i -> validIndex i idx = Ok (forallb (nonDefault i) idx).
Proof.
  intros Hinv. induction idx as [|col rest IH]; simpl; [reflexivity|].
  unfold nonDefault at 1, hasColumn.
  destruct (fields i !! col) as [n|] eqn:Hn; simpl.
  - destruct (FieldByColumn_mapped i col n Hinv Hn)
      as (j & f & v & _ & _ & _ & _ & ->).
    destruct (Column (table i) col) as [cs|]; [|reflexivity]. simpl.
    destruct (Value_IsValid (ValueOf v)); simpl; [|reflexivity].
    destruct (IsDefaultValue cs v); simpl; [reflexivity | exact IH].
  - now rewrite (FieldByColumn_unmapped i col Hn).
Qed.

Lemma validIndexesFrom_filter i possibleIndexes validIndexes :
  InfoInv i ->
  validIndexesFrom i possibleIndexes validIndexes
  = Ok (validIndexes
        ++ List.filter (fun idx => forallb (nonDefault i) idx) possibleIndexes)%list.
Proof.
  intros Hinv. revert validIndexes.
  induction possibleIndexes as [|idx rest IH]; intros acc; simpl.
  - now rewrite app_nil_r.
  - rewrite (validIndex_forallb i idx Hinv); simpl.
    rewrite IH. destruct (forallb (nonDefault i) idx); [|reflexivity].
    now rewrite <- app_assoc.
Qed.

Lemma getValidIndexes_filter i :
  InfoInv i ->
  getValidIndexes i
  = Ok (List.filter (fun idx => forallb (nonDefault i) idx)
          (["_uuid"] :: Indexes (table i))).
Proof.
  intros Hinv. unfold getValidIndexes.
  now rewrite (validIndexesFrom_filter i _ [] Hinv).
Qed.

Lemma filter_sublist {A} (p : A -> bool) (l : list A) :
  sublist (List.filter p l) l.
Proof.
  induction l as [|x l IH]; simpl; [constructor|].
  destruct (p x); now constructor.
Qed.

(** The inner loop returns no error, whatever the Info: FieldByColumn is
    called on a column that hasColumn has just found. *)
Lemma validIndex_not_Err i idx e : validIndex i idx <> Err e.
Proof.
  induction idx as [|col rest IH]; simpl; [discriminate|].
  unfold hasColumn.
  destruct (fields i !! col) as [n|] eqn:Hn; simpl; [|discriminate].
  destruct (Column (table i) col) as [cs|]; [|discriminate].
  destruct (FieldByColumn i col) as [v|e'|] eqn:Hv; simpl; try discriminate.
  - now destruct (negb (Value_IsValid (ValueOf v)) || IsDefaultValue cs v).
  - apply FieldByColumn_Err in Hv. congruence.
Qed.

Lemma validIndexesFrom_not_Err i possibleIndexes validIndexes e :
  validIndexesFrom i possibleIndexes validIndexes <> Err e.
Proof.
  revert validIndexes.
  induction possibleIndexes as [|idx rest IH]; intros acc; simpl;
    [discriminate|].
  destruct (validIndex i idx) as [ok| |] eqn:Hok; simpl; try discriminate.
  - apply IH.
  - now apply validIndex_not_Err in Hok.
Qed.

End getValidIndexes_facts.

(** ** Resolving a field pointer *)

Section ColumnByPtr_facts.
Context {ovsdb : Ovsdb}.

(** The loop returns the tag of the first field at the offset. *)
Lemma columnAtOffset_fieldAt i offset fs :
  columnAtOffset i offset fs
  = match fieldAt offset fs with
    | None => Err ErrNotInStruct
    | Some f =>
        match fields i !! Tag f with
        | None => Err ErrNoColumnInfo
        | Some _ => Ok (Tag f)
        end
    end.
Proof.
  unfold fieldAt. induction fs as [|f fs IH]; simpl; [reflexivity|].
  destruct (bool_decide (Offset f = offset)); [reflexivity | exact IH].
Qed.

Lemma fieldAt_first fs j f :
  fs !! j = Some f ->
  (forall k g, (k < j)%nat -> fs !! k = Some g -> Offset g <> Offset f) ->
  fieldAt (Offset f) fs = Some f.
Proof.
  unfold fieldAt. revert j. induction fs as [|g fs IH]; intros j Hj Hfirst;
    [discriminate|].
  simpl. destruct j as [|j]; simpl in Hj.
  - injection Hj as ->. now rewrite bool_decide_eq_true_2.
  - rewrite bool_decide_eq_false_2 by (apply (Hfirst O g); [lia | reflexivity]).
    apply (IH j Hj). intros k h Hk Hh. apply (Hfirst (S k) h); [lia | exact Hh].
Qed.


(** In an Info, a field is in the map exactly when it is tagged. *)
Lemma tagged_lookup i f :
  InfoInv i -> f ∈ recordFields (obj i) ->
  (Tag f = "" -> fields i !! Tag f = None)
  /\ (Tag f <> "" -> is_Some (fields i !! Tag f)).
Proof.
  intros (_ & Hf & _) Hin. rewrite Hf. split.
  - intros Ht. apply eq_None_not_Some. intros H.
    apply tagMap_dom in H as [Hne _]. now apply Hne.
  - intros Ht. now apply tagMap_lookup_tagged.
Qed.

(** ColumnByPtr on a pointer: the offset of the pointer from the record,
    as a uintptr, is looked up among the fields. *)
Lemma ColumnByPtr_pointer i t a g :
  InfoInv i -> kindOf t = Ptr ->
  ColumnByPtr i (VPtr t a g)
  = columnAtOffset i ((a - recordAddr (obj i)) mod 2 ^ 64)
      (recordFields (obj i)).
Proof.
  intros (Hwf & _) Hk.
  destruct (wfRecord_inv _ Hwf) as (pt & a0 & e & fl & vals & Ho & Hpt & He & Hrf & _).
  rewrite Hrf. unfold ColumnByPtr, ValueOf. rewrite Ho. simpl.
  rewrite Hk. simpl. unfold Elem, Fields. rewrite Hpt. simpl. rewrite He. simpl.
  now rewrite <- Zminus_mod.
Qed.


End ColumnByPtr_facts.

(** ** Values that SetField accepts *)

Section SetField_accepts.
Context {ovsdb : Ovsdb}.

Lemma directlyAssignable_refl t : directlyAssignable t t = true.
Proof. unfold directlyAssignable. now rewrite bool_decide_eq_true_2. Qed.

(** Without channel types, direct assignability does not depend on the
    direction. *)
Lemma directlyAssignable_sym t u :
  directlyAssignable t u = directlyAssignable u t.
Proof.
  unfold directlyAssignable, haveIdenticalUnderlyingType.
  destruct (decide (t = u)) as [->|Hne]; [reflexivity|].
  rewrite (bool_decide_eq_false_2 (t = u)) by congruence.
  rewrite (bool_decide_eq_false_2 (u = t)) by congruence.
  rewrite (andb_comm (hasName t)).
  destruct (hasName u && hasName t); simpl; [reflexivity|].
  destruct (decide (kindOf t = kindOf u)) as [Hk|Hk].
  - rewrite (bool_decide_eq_true_2 (kindOf t = kindOf u)) by congruence.
    rewrite (bool_decide_eq_true_2 (kindOf u = kindOf t)) by congruence.
    simpl. apply bool_decide_ext. split; congruence.
  - rewrite (bool_decide_eq_false_2 (kindOf t = kindOf u)) by congruence.
    rewrite (bool_decide_eq_false_2 (kindOf u = kindOf t)) by congruence.
    reflexivity.
Qed.

Lemma kindOf_Defined p n u : kindOf (TDefined p n u) = kindOf u.
Proof. reflexivity. Qed.

Lemma TypeOf_retype v t : v <> VNil -> TypeOf (retype v t) = Some t.
Proof. destruct v; try reflexivity. intros H. now destruct H. Qed.

(** The zero value of a type that is no interface has that type. *)
Lemma TypeOf_zeroOf t : kindOf t <> Interface -> TypeOf (zeroOf t) = Some t.
Proof.
  induction t as [| | | | |p n u IH| | | |]; intros Hk; try reflexivity.
  - now destruct Hk.
  - simpl. apply TypeOf_retype. rewrite kindOf_Defined in Hk.
    specialize (IH Hk). intros Hz. rewrite Hz in IH. discriminate.
Qed.

Lemma storeField_mapped i n j c :
  wfRecord (obj i) = true ->
  fieldIndex n (recordFields (obj i)) = Some j ->
  exists i', storeField i n c = Ok i'.
Proof.
  intros Hwf Hj.
  destruct (wfRecord_inv _ Hwf) as (pt & a & e & fl & vals & Ho & Hpt & He & Hrf & _).
  rewrite Hrf in Hj. unfold storeField. rewrite Ho.
  unfold Elem, Fields. rewrite Hpt. simpl. rewrite He. simpl. rewrite Hj.
  eauto.
Qed.

(** A value of the field's own type is stored as it is. *)
Lemma SetField_same_type i c n j f v0 v :
  wfRecord (obj i) = true ->
  fields i !! c = Some n ->
  fieldIndex n (recordFields (obj i)) = Some j ->
  fieldOf i n = Ok (MkValue (Typ f) v0) ->
  TypeOf v = Some (Typ f) ->
  fst (SetField i c v) = Ok tt.
Proof.
  intros Hwf Hc Hj Hfo Hv.
  unfold SetField, SetField_value. rewrite Hc, Hfo. simpl. rewrite Hv. simpl.
  unfold AssignableTo. rewrite directlyAssignable_refl. simpl.
  unfold ValueOf. rewrite Hv. unfold Value_Set, assignTo.
  rewrite directlyAssignable_refl. simpl.
  destruct (atType (Typ f) v) as [|t' c'] eqn:Hat.
  - unfold atType in Hat. now destruct (bool_decide (kindOf (Typ f) = Interface)).
  - destruct (storeField_mapped i n j c' Hwf Hj) as [i' ->]. reflexivity.
Qed.

(** A field of interface type takes any value: here a bool. *)
Lemma SetField_interface i c n j f v0 :
  wfRecord (obj i) = true ->
  fields i !! c = Some n ->
  fieldIndex n (recordFields (obj i)) = Some j ->
  fieldOf i n = Ok (MkValue (Typ f) v0) ->
  kindOf (Typ f) = Interface ->
  fst (SetField i c (VBool TBool true)) = Ok tt.
Proof.
  intros Hwf Hc Hj Hfo Hk.
  assert (underlying (Typ f) = TInterface) as Hu.
  { unfold kindOf in Hk. destruct (underlying (Typ f)); try discriminate.
    reflexivity. }
  assert (Typ f <> TBool) as Hne by (intros E; rewrite E in Hk; discriminate).
  assert (convertOp (Typ f) TBool = Some cvtT2I) as Hcv.
  { unfold convertOp, haveIdenticalUnderlyingType, implements.
    rewrite Hk, Hu. simpl. destruct (Typ f); reflexivity. }
  unfold SetField, SetField_value. rewrite Hc, Hfo. simpl.
  unfold AssignableTo, directlyAssignable, implements.
  rewrite (bool_decide_eq_false_2 (TBool = Typ f)) by congruence.
  rewrite Hk. simpl. rewrite orb_true_r. simpl.
  unfold ConvertibleTo. rewrite Hcv. simpl.
  unfold atType. rewrite Hk. simpl.
  unfold Value_Set, assignTo. rewrite directlyAssignable_refl. simpl.
  unfold atType. rewrite Hk. simpl.
  destruct (storeField_mapped i n j (VBool TBool true) Hwf Hj) as [i' ->].
  reflexivity.
Qed.

(** For every column of the map there is a value that SetField stores. *)
Lemma SetField_accepts_sample i c n :
  InfoInv i ->
  fields i !! c = Some n ->
  exists v, fst (SetField i c v) = Ok tt.
Proof.
  intros Hinv Hc.
  destruct (mapped_column i c n Hinv Hc)
    as (j & f & v0 & _ & _ & _ & _ & Hj & _ & Hfo).
  destruct Hinv as (Hwf & _).
  exists (sampleOf (Typ f)). unfold sampleOf. case_bool_decide as Hk.
  - now apply (SetField_interface i c n j f v0).
  - apply (SetField_same_type i c n j f v0); try assumption.
    now apply TypeOf_zeroOf.
Qed.

End SetField_accepts.

(** ** The conversions of SetField *)

Section SetField_conversions.
Context {ovsdb : Ovsdb}.

#[local] Arguments Value_Convert : simpl never.

Lemma atType_contentAt t c : atType t c = MkValue t (contentAt t c).
Proof. unfold atType, contentAt. now destruct (bool_decide _). Qed.

Lemma directlyAssignable_kindOf T V :
  directlyAssignable T V = true -> kindOf T = kindOf V.
Proof.
  unfold directlyAssignable. case_bool_decide as E; [now subst|].
  destruct (hasName T && hasName V); simpl; [discriminate|].
  case_bool_decide; simpl; [auto | discriminate].
Qed.

(** The field that a column of the map leads to. *)
Lemma mapped_field i c j f :
  InfoInv i ->
  fields i !! c = Some (Name f) ->
  recordFields (obj i) !! j = Some f ->
  fieldIndex (Name f) (recordFields (obj i)) = Some j
  /\ exists v0, fieldOf i (Name f) = Ok (MkValue (Typ f) v0).
Proof.
  intros Hinv Hc Hj.
  destruct (mapped_column i c (Name f) Hinv Hc)
    as (j' & f' & v & Hj' & _ & _ & _ & Hidx & _ & Hfo).
  destruct Hinv as (Hwf & _).
  destruct (wfRecord_inv _ Hwf) as (pt & a & e & fl & vals & _ & _ & _ & _ & Hnd & _).
  pose proof (fieldIndex_NoDup _ j f Hnd Hj) as Hidx'.
  assert (j' = j) as -> by congruence.
  assert (f' = f) as -> by congruence.
  split; [exact Hidx' | eauto].
Qed.

Lemma storeField_withField i n j c :
  wfRecord (obj i) = true ->
  fieldIndex n (recordFields (obj i)) = Some j ->
  storeField i n c = Ok (withField i j c).
Proof.
  intros Hwf Hj.
  destruct (wfRecord_inv _ Hwf) as (pt & a & e & fl & vals & Ho & Hpt & He & Hrf & _).
  rewrite Hrf in Hj. unfold storeField, withField. rewrite Ho.
  unfold Elem, Fields. rewrite Hpt. simpl. rewrite He. simpl. now rewrite Hj.
Qed.

(** Line 74 stores a value that may be assigned to the field. *)
Lemma Value_Set_stores i n j F t x :
  wfRecord (obj i) = true ->
  fieldIndex n (recordFields (obj i)) = Some j ->
  directlyAssignable F t || implements F t = true ->
  Value_Set i n F (MkValue t x) = (Ok tt, withField i j (contentAt F x)).
Proof.
  intros Hwf Hj Ha. unfold Value_Set, assignTo. rewrite Ha. simpl.
  rewrite atType_contentAt. now rewrite (storeField_withField i n j _ Hwf Hj).
Qed.

(** A conversion gives a value of the type asked for. *)
Lemma Value_Convert_Ok src c t :
  ConvertibleTo src t = true ->
  exists x, Value_Convert (E := error) (MkValue src c) t = Ok (MkValue t x).
Proof.
  unfold ConvertibleTo, Value_Convert.
  destruct (convertOp t src) as [op|]; [intros _ | discriminate].
  destruct op, c; rewrite ?atType_contentAt; eauto.
Qed.

(** (1) A value whose type is assignable to the field's type is stored as
    it is. *)
Lemma SetField_assignable i c j f v V :
  reachable i ->
  fields i !! c = Some (Name f) ->
  recordFields (obj i) !! j = Some f ->
  TypeOf v = Some V -> kindOf V <> Interface ->
  AssignableTo (Typ f) V = true ->
  SetField i c v = (Ok tt, withField i j (retype v (Typ f))).
Proof.
  intros Hr Hc Hj Hv HV Ha. apply reachable_InfoInv in Hr.
  destruct (mapped_field i c j f Hr Hc Hj) as (Hidx & v0 & Hfo).
  destruct Hr as (Hwf & _).
  assert (directlyAssignable (Typ f) V = true) as Hd.
  { unfold AssignableTo, implements in Ha.
    rewrite (bool_decide_eq_false_2 (kindOf V = Interface)) in Ha by exact HV.
    rewrite orb_false_r in Ha. now rewrite directlyAssignable_sym. }
  unfold SetField, SetField_value. rewrite Hc, Hfo. simpl. rewrite Hv. simpl.
  rewrite Ha. simpl. unfold ValueOf. rewrite Hv.
  rewrite (Value_Set_stores i (Name f) j (Typ f) V v Hwf Hidx)
    by (now rewrite Hd).
  unfold contentAt. rewrite bool_decide_eq_false_2; [reflexivity|].
  rewrite (directlyAssignable_kindOf _ _ Hd). exact HV.
Qed.

(** (2) Otherwise, for a field that is no pointer, a value whose type is
    convertible to the field's type is converted and stored. *)
Lemma SetField_convertible i c j f v V :
  reachable i ->
  fields i !! c = Some (Name f) ->
  recordFields (obj i) !! j = Some f ->
  TypeOf v = Some V ->
  AssignableTo (Typ f) V = false ->
  kindOf (Typ f) <> Ptr ->
  ConvertibleTo V (Typ f) = true ->
  exists x,
    Value_Convert (E := error) (ValueOf v) (Typ f) = Ok (MkValue (Typ f) x)
    /\ SetField i c v = (Ok tt, withField i j (contentAt (Typ f) x)).
Proof.
  intros Hr Hc Hj Hv Ha Hk Hcv. apply reachable_InfoInv in Hr.
  destruct (mapped_field i c j f Hr Hc Hj) as (Hidx & v0 & Hfo).
  destruct Hr as (Hwf & _).
  destruct (Value_Convert_Ok V v (Typ f) Hcv) as [x Hx].
  exists x. unfold ValueOf. rewrite Hv. split; [exact Hx|].
  unfold SetField, SetField_value. rewrite Hc, Hfo. simpl. rewrite Hv. simpl.
  rewrite Ha. simpl.
  rewrite (bool_decide_eq_false_2 (kindOf (Typ f) = Ptr)) by exact Hk.
  unfold ValueOf. rewrite Hv. simpl. rewrite Hcv, Hx. simpl.
  apply (Value_Set_stores i (Name f) j (Typ f) (Typ f) x Hwf Hidx).
  now rewrite directlyAssignable_refl.
Qed.

(** Otherwise, for a field that is neither a pointer nor a slice, SetField
    returns the not-assignable error and leaves the record as it is. *)
Lemma SetField_not_assignable i c j f v V :
  reachable i ->
  fields i !! c = Some (Name f) ->
  recordFields (obj i) !! j = Some f ->
  TypeOf v = Some V ->
  AssignableTo (Typ f) V = false ->
  kindOf (Typ f) <> Ptr -> kindOf (Typ f) <> Slice ->
  ConvertibleTo V (Typ f) = false ->
  SetField i c v = (Err (ErrNotAssignable c v (Name f) (Typ f)), i).
Proof.
  intros Hr Hc Hj Hv Ha Hk Hs Hcv. apply reachable_InfoInv in Hr.
  destruct (mapped_field i c j f Hr Hc Hj) as (Hidx & v0 & Hfo).
  unfold SetField, SetField_value. rewrite Hc, Hfo. simpl. rewrite Hv. simpl.
  rewrite Ha. simpl.
  rewrite (bool_decide_eq_false_2 (kindOf (Typ f) = Ptr)) by exact Hk.
  unfold ValueOf. rewrite Hv. simpl. rewrite Hcv.
  now rewrite (bool_decide_eq_false_2 (kindOf (Typ f) = Slice)) by exact Hs.
Qed.

(** For a slice field and a value that has an element type which is not
    convertible to that of the field, SetField returns the
    element-not-convertible error. *)
Lemma SetField_element_not_convertible i c j f v V vElem fElem :
  reachable i ->
  fields i !! c = Some (Name f) ->
  recordFields (obj i) !! j = Some f ->
  TypeOf v = Some V ->
  AssignableTo (Typ f) V = false ->
  kindOf (Typ f) = Slice ->
  ConvertibleTo V (Typ f) = false ->
  Elem (E := error) V = Ok vElem ->
  Elem (E := error) (Typ f) = Ok fElem ->
  ConvertibleTo vElem fElem = false ->
  SetField i c v = (Err (ErrElemNotConvertible c v (Name f) (Typ f)), i).
Proof.
  intros Hr Hc Hj Hv Ha Hs Hcv HeV HeF Hce. apply reachable_InfoInv in Hr.
  destruct (mapped_field i c j f Hr Hc Hj) as (Hidx & v0 & Hfo).
  unfold SetField, SetField_value. rewrite Hc, Hfo. simpl. rewrite Hv. simpl.
  rewrite Ha. simpl. rewrite Hs. simpl.
  unfold ValueOf. rewrite Hv. simpl. rewrite Hcv. simpl.
  rewrite HeV. simpl. rewrite HeF. simpl. now rewrite Hce.
Qed.

(** A value whose type has no element type panics in a slice field. *)
Lemma SetField_no_element_type i c j f v V :
  reachable i ->
  fields i !! c = Some (Name f) ->
  recordFields (obj i) !! j = Some f ->
  TypeOf v = Some V ->
  AssignableTo (Typ f) V = false ->
  kindOf (Typ f) = Slice ->
  ConvertibleTo V (Typ f) = false ->
  kindOf V <> Ptr -> kindOf V <> Slice -> kindOf V <> Map ->
  SetField i c v = (Panic "reflect: Elem of invalid type", i).
Proof.
  intros Hr Hc Hj Hv Ha Hs Hcv HP HS HM. apply reachable_InfoInv in Hr.
  destruct (mapped_field i c j f Hr Hc Hj) as (Hidx & v0 & Hfo).
  unfold SetField, SetField_value. rewrite Hc, Hfo. simpl. rewrite Hv. simpl.
  rewrite Ha. simpl. rewrite Hs. simpl.
  unfold ValueOf. rewrite Hv. simpl. rewrite Hcv. simpl.
  unfold Elem, kindOf in *. destruct (underlying V); try reflexivity;
    exfalso; auto.
Qed.



Lemma zeroOf_slice t : kindOf t = Slice -> zeroOf t = VSlice t None.
Proof.
  induction t as [| | | | |p n u IH| | | |]; intros Hk; try discriminate.
  - simpl. rewrite kindOf_Defined in Hk. now rewrite (IH Hk).
  - reflexivity.
Qed.

(** The loop of lines 64-67 on a slice: the elements from index [k] on are
    converted and appended. *)
Lemma appendConverted_slice V V' l e F fe n :
  Elem (E := error) V = Ok e ->
  Elem (E := error) F = Ok fe ->
  ConvertibleTo e fe = true ->
  forall k l0,
    (k + n = length (default [] l))%nat ->
    appendConverted (MkValue V (VSlice V' l)) fe (seq k n)
      (MkValue F (VSlice F l0))
    = Ok (MkValue F
            (VSlice F
               (match n with
                | O => l0
                | S _ =>
                    Some (default [] l0
                          ++ map (convertElem e fe) (drop k (default [] l)))%list
                end))).
Proof.
  intros HeV HeF Hce. induction n as [|n IH]; intros k l0 Hlen.
  - reflexivity.
  - simpl seq. simpl appendConverted. unfold Value_Index. rewrite HeV. simpl.
    assert (is_Some (default [] l !! k)) as [c Hc]
      by (apply lookup_lt_is_Some; lia).
    rewrite Hc. simpl.
    destruct (Value_Convert_Ok e c fe Hce) as [x Hx]. rewrite Hx. simpl.
    unfold Append. rewrite HeF. simpl. unfold assignTo.
    rewrite directlyAssignable_refl. simpl. rewrite atType_contentAt.
    unfold bind at 1. rewrite (IH (S k) _ ltac:(lia)).
    rewrite (drop_S _ _ _ Hc). simpl map.
    assert (convertElem e fe c = contentAt fe x) as ->
      by (unfold convertElem; now rewrite Hx).
    destruct n as [|n]; simpl.
    + rewrite drop_ge by lia. reflexivity.
    + rewrite <- app_assoc. reflexivity.
Qed.

(** (3) Otherwise, for a slice field and a slice whose element type is
    convertible to that of the field, the slice of the converted elements
    is stored (the nil slice when there is no element). *)
Lemma SetField_slice_elements i c j f V l vElem fElem :
  reachable i ->
  fields i !! c = Some (Name f) ->
  recordFields (obj i) !! j = Some f ->
  AssignableTo (Typ f) V = false ->
  kindOf (Typ f) = Slice ->
  ConvertibleTo V (Typ f) = false ->
  Elem (E := error) V = Ok vElem ->
  Elem (E := error) (Typ f) = Ok fElem ->
  ConvertibleTo vElem fElem = true ->
  SetField i c (VSlice V l)
  = (Ok tt,
     withField i j
       (VSlice (Typ f)
          (match default [] l with
           | [] => None
           | es => Some (map (convertElem vElem fElem) es)
           end))).
Proof.
  intros Hr Hc Hj Ha Hs Hcv HeV HeF Hce. apply reachable_InfoInv in Hr.
  destruct (mapped_field i c j f Hr Hc Hj) as (Hidx & v0 & Hfo).
  destruct Hr as (Hwf & _).
  unfold SetField, SetField_value. rewrite Hc, Hfo. simpl.
  rewrite Ha. simpl. rewrite Hs. simpl. rewrite Hcv. simpl.
  rewrite HeV. simpl. rewrite HeF. simpl. rewrite Hce. simpl.
  unfold Zero. rewrite (zeroOf_slice _ Hs).
  rewrite (appendConverted_slice V V l vElem (Typ f) fElem _ HeV HeF Hce O None)
    by reflexivity.
  simpl.
  rewrite (Value_Set_stores i (Name f) j (Typ f) (Typ f) _ Hwf Hidx)
    by (now rewrite directlyAssignable_refl).
  unfold contentAt. rewrite Hs. simpl. rewrite drop_0.
  destruct (default [] l); reflexivity.
Qed.

End SetField_conversions.

(** * The claims *)

Section claims.
Context {ovsdb : Ovsdb}.

(** C3: for every Info, getValidIndexes returns exactly the index groups,
    among the pseudo-index ["_uuid"] followed by the indexes the table
    declares, in which every column has a non-default value on the record
    (the column is mapped, its field holds a non-nil value that
    IsDefaultValue does not take for a default); the groups come in the
    order in which they are considered: "_uuid" first, then the declared
    order. *)
Theorem C3_getValidIndexes_filter (i : Info) :
  reachable i ->
  exists validIndexes,
    getValidIndexes i = Ok validIndexes
    /\ validIndexes
       = List.filter (fun idx => forallb (nonDefault i) idx)
           (["_uuid"] :: Indexes (table i))
    /\ sublist validIndexes (["_uuid"] :: Indexes (table i))
    /\ forall idx,
         idx ∈ validIndexes
         <-> idx ∈ ["_uuid"] :: Indexes (table i)
             /\ forall col, col ∈ idx ->
                  exists v columnSchema,
                    FieldByColumn i col = Ok v
                    /\ Column (table i) col = Some columnSchema
                    /\ v <> VNil
                    /\ IsDefaultValue columnSchema v = false.
Proof.
  intros Hr. apply reachable_InfoInv in Hr.
  eexists. split; [exact (getValidIndexes_filter i Hr)|].
  split; [reflexivity|]. split; [apply filter_sublist|].
  intros idx. rewrite list_elem_of_In, filter_In, forallb_forall.
  rewrite <- list_elem_of_In. split; intros [Hin Hall]; (split; [exact Hin|]).
  - intros col Hcol. apply nonDefault_true, Hall. now apply list_elem_of_In.
  - intros col Hcol. apply nonDefault_true, Hall. now apply list_elem_of_In.
Qed.


(** C6: for every Info and column name c, FieldByColumn returns the value
    of a field of the record tagged with c when there is such a field, and
    the column-not-found error when no field of the record is tagged with
    c. *)
Theorem C6_FieldByColumn (i : Info) (c : string) :
  reachable i ->
  ((exists f, f ∈ recordFields (obj i) /\ Tag f = c /\ c <> "") ->
     exists j f v,
       recordFields (obj i) !! j = Some f /\ Tag f = c
       /\ recordValues (obj i) !! j = Some v
       /\ FieldByColumn i c = Ok v)
  /\ (~ (exists f, f ∈ recordFields (obj i) /\ Tag f = c /\ c <> "") ->
        FieldByColumn i c = Err (ErrColumnNotFound c)).
Proof.
  intros Hr. apply reachable_InfoInv in Hr. pose proof Hr as (_ & Hf & _).
  split.
  - intros (f & Hin & Ht & Hne).
    assert (is_Some (fields i !! c)) as [n Hn].
    { rewrite Hf. apply tagMap_dom. eauto. }
    destruct (FieldByColumn_mapped i c n Hr Hn)
      as (j & g & v & Hj & Hg & _ & Hv & Hfc).
    exists j, g, v. repeat split; assumption.
  - intros Hno. apply FieldByColumn_unmapped.
    apply eq_None_not_Some. intros H. rewrite Hf in H.
    apply tagMap_dom in H as (Hne & f & Hin & Ht). apply Hno. eauto.
Qed.

(** C7: the fields of the record whose tag is empty are not part of the
    mapping.  NewInfo succeeds as soon as every tagged field has its column
    in the schema and passes the type check, whatever the types and names
    of the untagged fields; and every column of the resulting Info leads
    FieldByColumn and SetField to a field that carries this column as its
    tag: FieldByColumn reads that field, and a SetField that succeeds
    changes that field and no other. *)
Theorem C7_untagged_fields_ignored (tbl : TableSchema) (o : GoValue) :
  wfRecord o = true ->
  ((forall f, f ∈ recordFields o -> Tag f <> "" ->
      exists column,
        Column tbl (Tag f) = Some column
        /\ typeCheck (NativeType column) (Typ f) = true) ->
   NewInfo tbl o = Ok (mkInfo (tagMap (recordFields o)) o tbl))
  /\ forall i, NewInfo tbl o = Ok i ->
       forall c n, fields i !! c = Some n ->
         exists j f v,
           recordFields o !! j = Some f /\ Name f = n
           /\ Tag f = c /\ c <> ""
           /\ recordValues o !! j = Some v
           /\ FieldByColumn i c = Ok v
           /\ forall value k,
                fst (SetField i c value) = Ok tt -> k <> j ->
                recordValues (obj (snd (SetField i c value))) !! k
                = recordValues o !! k.
Proof.
  intros Hwf. split.
  - intros Hall. apply NewInfo_Ok; [exact Hwf|].
    apply forallb_forall. intros f Hf. apply list_elem_of_In in Hf.
    unfold fieldOK. case_bool_decide as Ht; [reflexivity|].
    destruct (Hall f Hf Ht) as (column & -> & Hck). exact Hck.
  - intros i Hi c n Hn.
    pose proof (NewInfo_InfoInv tbl o i Hwf Hi) as Hinv.
    destruct (NewInfo_Ok_inv tbl o i Hwf Hi) as [_ Ei].
    assert (obj i = o) as Eo by (rewrite Ei; reflexivity).
    destruct (mapped_column i c n Hinv Hn)
      as (j & f & v & Hj & Hname & Ht & Hne & Hidx & Hv & Hfo).
    rewrite Eo in Hj, Hv, Hidx.
    exists j, f, v. repeat split; try assumption.
    + unfold FieldByColumn. now rewrite Hn, Hfo.
    + intros value k Hok Hk.
      destruct (SetField_state i c value)
        as [E|(pt & a & st & vals & n' & j' & c' & Ho & Hn' & Hj' & _ & ->)].
      * rewrite E, Eo. reflexivity.
      * rewrite Eo in Ho, Hj'. rewrite Ho. simpl.
        assert (j' = j) as -> by congruence.
        now rewrite list_lookup_insert_ne.
Qed.

(** C8: every Info that NewInfo produces, and every Info that SetField
    leaves behind, keeps the invariant that its column-to-field map holds
    exactly the columns that appear as tags on the fields of its record,
    each of them a column of the table schema; FieldByColumn succeeds on
    exactly these columns, and they are exactly the columns for which
    SetField stores some value: for any other column it answers
    column-not-found. *)
Theorem C8_map_is_exactly_the_tags (i : Info) :
  reachable i ->
  (forall c, is_Some (fields i !! c)
             <-> c <> "" /\ exists f, f ∈ recordFields (obj i) /\ Tag f = c)
  /\ (forall c, is_Some (fields i !! c) -> is_Some (Column (table i) c))
  /\ (forall c, is_Ok (FieldByColumn i c) = true <-> is_Some (fields i !! c))
  /\ (forall c, (exists value, fst (SetField i c value) = Ok tt)
                <-> is_Some (fields i !! c))
  /\ (forall c value,
        fields i !! c = None ->
        SetField i c value = (Err (ErrColumnNotFound c), i)).
Proof.
  intros Hr. apply reachable_InfoInv in Hr. pose proof Hr as (Hwf & Hf & Hcols).
  split; [|split; [|split; [|split]]].
  - intros c. rewrite Hf. apply tagMap_dom.
  - intros c H. rewrite Hf in H.
    apply tagMap_dom in H as (Hne & f & Hin & <-).
    rewrite Forall_forall in Hcols. destruct (Hcols f Hin) as [E|H]; [|exact H].
    now destruct Hne.
  - intros c. split.
    + destruct (fields i !! c) as [n|] eqn:Hn; [eauto|].
      now rewrite (FieldByColumn_unmapped i c Hn).
    + intros [n Hn].
      destruct (FieldByColumn_mapped i c n Hr Hn) as (j & f & v & _ & _ & _ & _ & ->).
      reflexivity.
  - intros c. split.
    + intros [value Hok].
      destruct (fields i !! c) as [n|] eqn:Hn; [eauto|].
      rewrite (SetField_not_found i c value Hn) in Hok. discriminate.
    + intros [n Hn]. exact (SetField_accepts_sample i c n Hr Hn).
  - intros c value Hn. exact (SetField_not_found i c value Hn).
Qed.

End claims.

Section claims_lookup.
Context {ovsdb : Ovsdb}.


(** C10: in getValidIndexes the error branch after FieldByColumn is never
    taken: for every Info and every column that hasColumn has found,
    FieldByColumn returns a value and no error, and getValidIndexes returns
    no error at all: it returns its list. *)
Theorem C10_no_error_after_hasColumn (i : Info) (col : string) :
  reachable i ->
  hasColumn i col = true ->
  (exists v, FieldByColumn i col = Ok v)
  /\ (forall e, FieldByColumn i col <> Err e)
  /\ (forall e, getValidIndexes i <> Err e)
  /\ is_Ok (getValidIndexes i) = true.
Proof.
  intros Hr Hc. apply reachable_InfoInv in Hr.
  apply hasColumn_true in Hc as [n Hn].
  destruct (FieldByColumn_mapped i col n Hr Hn) as (j & f & v & _ & _ & _ & _ & Hv).
  split; [eauto|]. split; [intros e; rewrite Hv; discriminate|].
  split.
  - intros e. apply validIndexesFrom_not_Err.
  - now rewrite (getValidIndexes_filter i Hr).
Qed.

(** NewInfo on an argument that has a type which is no pointer type, and on
    a pointer to something that is no struct. *)
Lemma NewInfo_no_pointer tbl o t :
  TypeOf o = Some t -> kindOf t <> Ptr ->
  NewInfo tbl o = Err (NewErrWrongType "NewMapperInfo" "pointer to a struct" o).
Proof.
  intros Ht Hk. unfold NewInfo, ValueOf. rewrite Ht. simpl.
  now rewrite bool_decide_eq_false_2.
Qed.

Lemma NewInfo_no_struct tbl pt a g e :
  underlying pt = TPtr e -> kindOf e <> Struct ->
  NewInfo tbl (VPtr pt a g)
  = Err (NewErrWrongType "NewMapperInfo" "pointer to a struct" (VPtr pt a g)).
Proof.
  intros Hpt Hk.
  assert (kindOf pt = Ptr) as Hkp by (unfold kindOf; now rewrite Hpt).
  unfold NewInfo, ValueOf, Indirect. simpl. rewrite Hkp. simpl.
  destruct g as [g|]; simpl.
  - rewrite Hpt. simpl. unfold atType.
    destruct (bool_decide (kindOf e = Interface)); simpl;
      now rewrite bool_decide_eq_false_2.
  - reflexivity.
Qed.

(** C9 (the code departs from the claim): the nil interface is no pointer,
    and NewInfo does not answer it with the wrong-type error: it calls
    Type() on the zero Value, which panics. *)
Theorem C9_NewInfo_nil_panics (tbl : TableSchema) :
  NewInfo tbl VNil = Panic "reflect: call of reflect.Value.Type on zero Value".
Proof. reflexivity. Qed.

End claims_lookup.

(** * The claims on the Bridge table *)

(** C1 (the code departs from the claim): the column ports has the native
    type []string, the field Ports of PortCount is an int, and NewInfo
    returns an Info that maps ports to it: the first branch of the type
    check accepts a field of any type for a column whose native type is a
    slice of strings. *)
Theorem C1_string_set_column_accepts_any_field :
  Column (Ovsdb := exOvsdb) bridgeTable "ports" = Some (TSlice TString)
  /\ recordFields portCount = [mkField "Ports" TInt "ports" 0]
  /\ NewInfo bridgeTable portCount
     = Ok (mkInfo {["ports" := "Ports"]} portCount bridgeTable)
  /\ forall fieldType, typeCheck (TSlice TString) fieldType = true.
Proof.
  split; [reflexivity|]. split; [reflexivity|].
  split; [vm_compute; reflexivity | exact typeCheck_string_slice].
Qed.

(** C2 (the code departs from the claim): the field Ports of a Bridge is a
    []string; the string "x" is neither assignable nor convertible to it,
    it has no elements and the field is no pointer, yet SetField returns no
    error: it asks the type string for its element type, which panics. *)
Theorem C2_SetField_string_into_slice_field_panics :
  NewInfo bridgeTable br0 = Ok br0Info
  /\ AssignableTo (TSlice TString) TString = false
  /\ ConvertibleTo TString (TSlice TString) = false
  /\ SetField br0Info "ports" (VString TString "x")
     = (Panic "reflect: Elem of invalid type", br0Info).
Proof.
  split; [vm_compute; reflexivity|].
  split; [reflexivity|]. split; [reflexivity|].
  vm_compute; reflexivity.
Qed.

(** C3 on [br0]: the name is set and the datapath type is not, so the
    valid indexes are "_uuid" and "name". *)
Lemma C3_getValidIndexes_witness :
  reachable br0Info
  /\ exists validIndexes,
       getValidIndexes br0Info = Ok validIndexes
       /\ validIndexes = [["_uuid"]; ["name"]].
Proof.
  split; [by_NewInfo bridgeTable br0|].
  destruct (C3_getValidIndexes_filter br0Info ltac:(by_NewInfo bridgeTable br0))
    as (l & Hl & Hfilter & _).
  exists l. split; [exact Hl|]. rewrite Hfilter. vm_compute. reflexivity.
Defined.




(** C6 on [br0]: the column name is read, the column comment is
    unknown (the field Comment is untagged). *)
Lemma C6_FieldByColumn_witness :
  reachable br0Info
  /\ (exists j f v,
        recordFields (obj br0Info) !! j = Some f /\ Tag f = "name"
        /\ recordValues (obj br0Info) !! j = Some v
        /\ FieldByColumn br0Info "name" = Ok v)
  /\ FieldByColumn br0Info "comment" = Err (ErrColumnNotFound "comment").
Proof.
  split; [by_NewInfo bridgeTable br0|].
  split.
  - apply (C6_FieldByColumn br0Info "name" ltac:(by_NewInfo bridgeTable br0)).
    exists (mkField "Name" TString "name" 16).
    split; [|split; [reflexivity | discriminate]].
    apply list_elem_of_In. vm_compute. tauto.
  - vm_compute; reflexivity.
Defined.

(** C7 on [br0]: no column of its Info has the empty name. *)
Lemma C7_untagged_fields_witness :
  wfRecord br0 = true
  /\ forall i, NewInfo bridgeTable br0 = Ok i ->
       forall c n, fields i !! c = Some n -> c <> "".
Proof.
  split; [vm_compute; reflexivity|].
  intros i Hi c n Hn.
  destruct (C7_untagged_fields_ignored (ovsdb := exOvsdb) bridgeTable br0
              eq_refl) as [_ H].
  destruct (H i Hi c n Hn) as (j & f & v & _ & _ & _ & Hne & _).
  exact Hne.
Defined.

(** C8 on [br0]: FieldByColumn succeeds exactly on the columns of the
    map. *)
Lemma C8_map_witness :
  reachable br0Info
  /\ forall c, is_Ok (FieldByColumn br0Info c) = true
               <-> is_Some (fields br0Info !! c).
Proof.
  split; [by_NewInfo bridgeTable br0|].
  destruct (C8_map_is_exactly_the_tags br0Info
              ltac:(by_NewInfo bridgeTable br0)) as (_ & _ & H & _).
  exact H.
Defined.

(** C10 on [br0]: the column name is found and read. *)
Lemma C10_no_error_witness :
  reachable br0Info
  /\ hasColumn br0Info "name" = true
  /\ exists v, FieldByColumn br0Info "name" = Ok v.
Proof.
  split; [by_NewInfo bridgeTable br0|]. split; [reflexivity|].
  destruct (C10_no_error_after_hasColumn br0Info "name"
              ltac:(by_NewInfo bridgeTable br0) eq_refl) as [H _].
  exact H.
Defined.

(** * Further properties of the operations *)

(** ** The slot of a column *)

Section slot_facts.
Context {ovsdb : Ovsdb}.

(** In an Info, the slot of a mapped column is a field that carries the
    column as its tag, and the field that the map names. *)
Lemma fieldSlot_Some i c j :
  InfoInv i ->
  fieldSlot i c = Some j ->
  exists f v0,
    recordFields (obj i) !! j = Some f
    /\ fields i !! c = Some (Name f)
    /\ Tag f = c /\ c <> ""
    /\ fieldIndex (Name f) (recordFields (obj i)) = Some j
    /\ recordValues (obj i) !! j = Some v0
    /\ fieldOf i (Name f) = Ok (MkValue (Typ f) v0).
Proof.
  intros Hinv. unfold fieldSlot.
  destruct (fields i !! c) as [n|] eqn:Hn; [|discriminate].
  intros Hj.
  destruct (mapped_column i c n Hinv Hn)
    as (j' & f & v & Hj' & Hname & Ht & Hne & Hidx & Hv & Hfo).
  assert (j' = j) as -> by congruence. subst n.
  exists f, v. repeat split; assumption.
Qed.

Lemma fieldSlot_mapped i c :
  InfoInv i -> is_Some (fields i !! c) -> is_Some (fieldSlot i c).
Proof.
  intros Hinv [n Hn].
  destruct (mapped_column i c n Hinv Hn) as (j & _ & _ & _ & _ & _ & _ & Hidx & _).
  unfold fieldSlot. rewrite Hn. eauto.
Qed.

Lemma fieldType_Some i c F :
  InfoInv i ->
  fieldType i c = Some F ->
  exists j f,
    fieldSlot i c = Some j /\ recordFields (obj i) !! j = Some f /\ Typ f = F.
Proof.
  intros Hinv. unfold fieldType.
  destruct (fieldSlot i c) as [j|] eqn:Hj; [|discriminate].
  destruct (recordFields (obj i) !! j) as [f|] eqn:Hf; [|discriminate].
  intros [= <-]. eauto.
Qed.

(** Two different columns have different slots. *)
Lemma fieldSlot_inj i c c' j :
  InfoInv i -> fieldSlot i c = Some j -> fieldSlot i c' = Some j -> c = c'.
Proof.
  intros Hinv H1 H2.
  destruct (fieldSlot_Some i c j Hinv H1) as (f & _ & Hf & _ & Ht & _).
  destruct (fieldSlot_Some i c' j Hinv H2) as (f' & _ & Hf' & _ & Ht' & _).
  congruence.
Qed.

(** FieldByColumn reads the slot of the column. *)
Lemma FieldByColumn_slot i c j :
  InfoInv i -> fieldSlot i c = Some j ->
  exists v, recordValues (obj i) !! j = Some v /\ FieldByColumn i c = Ok v.
Proof.
  intros Hinv Hj.
  destruct (fieldSlot_Some i c j Hinv Hj) as (f & v & _ & Hc & _ & _ & _ & Hv & Hfo).
  exists v. split; [exact Hv|]. unfold FieldByColumn. now rewrite Hc, Hfo.
Qed.

Lemma FieldByColumn_no_slot i c :
  InfoInv i -> fieldSlot i c = None ->
  FieldByColumn i c = Err (ErrColumnNotFound c).
Proof.
  intros Hinv Hj. apply FieldByColumn_unmapped.
  apply eq_None_not_Some. intros H.
  destruct (fieldSlot_mapped i c Hinv H) as [j Hj']. congruence.
Qed.

(** The Info with one field changed. *)
Lemma withField_frame i j x :
  wfRecord (obj i) = true ->
  fields (withField i j x) = fields i
  /\ table (withField i j x) = table i
  /\ recordFields (obj (withField i j x)) = recordFields (obj i)
  /\ recordAddr (obj (withField i j x)) = recordAddr (obj i)
  /\ recordValues (obj (withField i j x)) = <[j := x]> (recordValues (obj i))
  /\ wfRecord (obj (withField i j x)) = true.
Proof.
  intros Hwf.
  destruct (wfRecord_inv _ Hwf) as (pt & a & e & fl & vals & Ho & _).
  unfold withField. rewrite Ho. simpl. repeat split.
  rewrite Ho in Hwf. revert Hwf. unfold wfRecord.
  destruct (underlying pt); try discriminate. simpl.
  now rewrite length_insert.
Qed.

Lemma withField_InfoInv i j x : InfoInv i -> InfoInv (withField i j x).
Proof.
  intros (Hwf & Hf & Hc).
  destruct (withField_frame i j x Hwf) as (Ef & Et & Er & _ & _ & Ew).
  unfold InfoInv. rewrite Ef, Et, Er. repeat split; assumption.
Qed.

Lemma withField_fieldSlot i j x c :
  wfRecord (obj i) = true ->
  fieldSlot (withField i j x) c = fieldSlot i c.
Proof.
  intros Hwf. destruct (withField_frame i j x Hwf) as (Ef & _ & Er & _).
  unfold fieldSlot. now rewrite Ef, Er.
Qed.

(** Reading a column after one field has changed. *)
Lemma FieldByColumn_withField i j x c :
  InfoInv i ->
  FieldByColumn (withField i j x) c
  = if bool_decide (fieldSlot i c = Some j) then Ok x else FieldByColumn i c.
Proof.
  intros Hinv. pose proof (withField_InfoInv i j x Hinv) as Hinv'.
  pose proof Hinv as (Hwf & _).
  destruct (withField_frame i j x Hwf) as (_ & _ & _ & _ & Ev & _).
  pose proof (withField_fieldSlot i j x c Hwf) as Es.
  destruct (fieldSlot i c) as [k|] eqn:Hk.
  - destruct (FieldByColumn_slot _ c k Hinv' Es) as (v' & Hv' & ->).
    destruct (FieldByColumn_slot i c k Hinv Hk) as (v & Hv & ->).
    rewrite Ev in Hv'. case_bool_decide as E.
    + injection E as ->.
      rewrite list_lookup_insert_eq in Hv' by (now apply lookup_lt_Some with v).
      congruence.
    + rewrite list_lookup_insert_ne in Hv' by congruence. congruence.
  - rewrite bool_decide_eq_false_2 by discriminate.
    rewrite (FieldByColumn_no_slot i c Hinv Hk).
    now apply FieldByColumn_no_slot.
Qed.


End slot_facts.

(** ** SetField and FieldByColumn together *)

Section SetField_FieldByColumn.
Context {ovsdb : Ovsdb}.

(** SetField either stores a value in the slot of its column and succeeds,
    or fails and leaves the Info as it is. *)
Lemma SetField_outcome i c v :
  (exists j x, fieldSlot i c = Some j /\ SetField i c v = (Ok tt, withField i j x))
  \/ (fst (SetField i c v) <> Ok tt /\ snd (SetField i c v) = i).
Proof.
  unfold SetField.
  destruct (SetField_value i c v) as [[[n t] x]| |] eqn:Hv; simpl;
    try (right; split; [discriminate | reflexivity]).
  assert (fields i !! c = Some n) as Hn.
  { revert Hv. unfold SetField_value.
    destruct (fields i !! c) as [m|]; [|discriminate].
    intros Hv. f_equal. revert Hv.
    repeat (match goal with
            | |- context [bind ?r _] => destruct r; simpl
            | |- context [if ?b then _ else _] => destruct b; simpl
            end; try discriminate); congruence. }
  unfold Value_Set.
  destruct (assignTo x t) as [[|t' c']| |]; simpl;
    try (right; split; [discriminate | reflexivity]).
  destruct (storeField i n c') as [i'| |] eqn:Hst; simpl;
    try (right; split; [discriminate | reflexivity]).
  left. apply storeField_Ok in Hst as (pt & a & st & vals & j & Ho & Hj & ->).
  exists j, c'. split.
  - unfold fieldSlot. now rewrite Hn.
  - unfold withField. now rewrite Ho.
Qed.

Lemma retype_TypeOf v t : TypeOf v = Some t -> retype v t = v.
Proof. destruct v; simpl; congruence. Qed.

(** What a column of a given field type is made of. *)
Lemma fieldType_field i c F :
  InfoInv i ->
  fieldType i c = Some F ->
  exists j f,
    fieldSlot i c = Some j
    /\ fields i !! c = Some (Name f)
    /\ recordFields (obj i) !! j = Some f
    /\ Typ f = F.
Proof.
  intros Hinv HF.
  destruct (fieldType_Some i c F Hinv HF) as (j & f & Hj & Hf & Ht).
  destruct (fieldSlot_Some i c j Hinv Hj) as (f' & _ & Hf' & Hc & _).
  assert (f' = f) as -> by congruence.
  exists j, f. repeat split; assumption.
Qed.

(** X1: a value whose type is assignable to the type of the field is
    stored by SetField, and FieldByColumn then returns it, seen at the type
    of the field; it returns the very value when the value has the type of
    the field. *)
Theorem X1_SetField_then_FieldByColumn (i : Info) (c : string) (v : GoValue)
    (F V : GoType) :
  reachable i ->
  fieldType i c = Some F ->
  TypeOf v = Some V -> kindOf V <> Interface ->
  AssignableTo F V = true ->
  fst (SetField i c v) = Ok tt
  /\ FieldByColumn (snd (SetField i c v)) c = Ok (retype v F)
  /\ (V = F -> FieldByColumn (snd (SetField i c v)) c = Ok v).
Proof.
  intros Hr HF Hv HV Ha. pose proof (reachable_InfoInv i Hr) as Hinv.
  destruct (fieldType_field i c F Hinv HF) as (j & f & Hj & Hc & Hf & <-).
  rewrite (SetField_assignable i c j f v V Hr Hc Hf Hv HV Ha). simpl.
  rewrite (FieldByColumn_withField i j _ c Hinv).
  rewrite bool_decide_eq_true_2 by exact Hj.
  split; [reflexivity|]. split; [reflexivity|].
  intros ->. now rewrite (retype_TypeOf v _ Hv).
Qed.

(** X2: whatever SetField does on a column, every other column reads
    after the call what it read before. *)
Theorem X2_SetField_keeps_other_columns (i : Info) (c c' : string)
    (v : GoValue) :
  reachable i ->
  c' <> c ->
  FieldByColumn (snd (SetField i c v)) c' = FieldByColumn i c'.
Proof.
  intros Hr Hne. pose proof (reachable_InfoInv i Hr) as Hinv.
  destruct (SetField_outcome i c v) as [(j & x & Hj & ->)|[_ ->]];
    [|reflexivity].
  simpl. rewrite (FieldByColumn_withField i j x c' Hinv).
  rewrite bool_decide_eq_false_2; [reflexivity|].
  intros Hj'. apply Hne. exact (fieldSlot_inj i c' c j Hinv Hj' Hj).
Qed.

End SetField_FieldByColumn.

(** ** The conversions of SetField, column by column *)

Section SetField_by_column.
Context {ovsdb : Ovsdb}.

#[local] Arguments Value_Convert : simpl never.

Lemma kindOf_String_hasName t : kindOf t = String -> hasName t = true.
Proof. destruct t; try discriminate; reflexivity. Qed.

Lemma kindOf_String_underlying t : kindOf t = String -> underlying t = TString.
Proof. unfold kindOf. destruct (underlying t); try discriminate. reflexivity. Qed.

(** X3: an enum field, of a string type of its own, takes a string of
    any other string type: SetField converts it, and FieldByColumn then
    returns the same string at the type of the field. *)
Theorem X3_SetField_enum_from_string (i : Info) (c : string) (F V : GoType)
    (s : string) :
  reachable i ->
  fieldType i c = Some F ->
  kindOf F = String -> kindOf V = String -> V <> F ->
  AssignableTo F V = false
  /\ fst (SetField i c (VString V s)) = Ok tt
  /\ FieldByColumn (snd (SetField i c (VString V s))) c = Ok (VString F s).
Proof.
  intros Hr HF HkF HkV Hne. pose proof (reachable_InfoInv i Hr) as Hinv.
  destruct (fieldType_field i c F Hinv HF) as (j & f & Hj & Hc & Hf & <-).
  assert (AssignableTo (Typ f) V = false) as Ha.
  { unfold AssignableTo, directlyAssignable, implements.
    rewrite (bool_decide_eq_false_2 (V = Typ f)) by exact Hne.
    rewrite (kindOf_String_hasName _ HkF), (kindOf_String_hasName _ HkV).
    simpl. apply bool_decide_eq_false_2. rewrite HkV. discriminate. }
  assert (convertOp (Typ f) V = Some cvtDirect) as Hop.
  { unfold convertOp, haveIdenticalUnderlyingType.
    rewrite HkF, HkV.
    rewrite (kindOf_String_underlying _ HkF), (kindOf_String_underlying _ HkV).
    reflexivity. }
  assert (ConvertibleTo V (Typ f) = true) as Hcv
    by (unfold ConvertibleTo; now rewrite Hop).
  destruct (SetField_convertible i c j f (VString V s) V Hr Hc Hf eq_refl Ha
              ltac:(rewrite HkF; discriminate) Hcv) as (x & Hx & Hset).
  assert (x = VString (Typ f) s) as ->.
  { revert Hx. unfold ValueOf, Value_Convert. simpl. rewrite Hop.
    unfold atType. rewrite HkF. simpl. congruence. }
  split; [exact Ha|]. rewrite Hset. simpl. split; [reflexivity|].
  rewrite (FieldByColumn_withField i j _ c Hinv).
  rewrite bool_decide_eq_true_2 by exact Hj.
  unfold contentAt. rewrite HkF. reflexivity.
Qed.

(** X4: a slice field takes a slice of another type whose elements are
    convertible to its own: SetField converts the elements one by one, and
    FieldByColumn then returns the slice of the converted elements, the nil
    slice when the value has no element. *)
Theorem X4_SetField_slice_elementwise (i : Info) (c : string) (F V : GoType)
    (l : option (list GoValue)) (vElem fElem : GoType) :
  reachable i ->
  fieldType i c = Some F ->
  kindOf F = Slice ->
  AssignableTo F V = false ->
  ConvertibleTo V F = false ->
  Elem (E := error) V = Ok vElem ->
  Elem (E := error) F = Ok fElem ->
  ConvertibleTo vElem fElem = true ->
  fst (SetField i c (VSlice V l)) = Ok tt
  /\ FieldByColumn (snd (SetField i c (VSlice V l))) c
     = Ok (VSlice F
             (match default [] l with
              | [] => None
              | es => Some (map (convertElem vElem fElem) es)
              end)).
Proof.
  intros Hr HF Hs Ha Hcv HeV HeF Hce.
  pose proof (reachable_InfoInv i Hr) as Hinv.
  destruct (fieldType_field i c F Hinv HF) as (j & f & Hj & Hc & Hf & <-).
  rewrite (SetField_slice_elements i c j f V l vElem fElem Hr Hc Hf Ha Hs Hcv
             HeV HeF Hce).
  simpl. split; [reflexivity|].
  rewrite (FieldByColumn_withField i j _ c Hinv).
  now rewrite bool_decide_eq_true_2 by exact Hj.
Qed.


End SetField_by_column.

(** ** The failures of SetField *)

Section SetField_failures.
Context {ovsdb : Ovsdb}.

(** X6: a value that is neither assignable nor convertible to the type of
    the field gets the not-assignable error when the field is neither a
    pointer nor a slice, and the element-not-convertible error when the
    field is a slice and the type of the value has an element type that is
    not convertible to that of the field; the record is left as it is. *)
Theorem X6_SetField_conversion_errors (i : Info) (c : string) (F V : GoType)
    (v : GoValue) :
  reachable i ->
  fieldType i c = Some F ->
  TypeOf v = Some V ->
  AssignableTo F V = false ->
  ConvertibleTo V F = false ->
  exists n,
    fields i !! c = Some n
    /\ (kindOf F <> Ptr -> kindOf F <> Slice ->
        SetField i c v = (Err (ErrNotAssignable c v n F), i))
    /\ (forall vElem fElem,
          kindOf F = Slice ->
          Elem (E := error) V = Ok vElem ->
          Elem (E := error) F = Ok fElem ->
          ConvertibleTo vElem fElem = false ->
          SetField i c v = (Err (ErrElemNotConvertible c v n F), i)).
Proof.
  intros Hr HF Hv Ha Hcv. pose proof (reachable_InfoInv i Hr) as Hinv.
  destruct (fieldType_field i c F Hinv HF) as (j & f & Hj & Hc & Hf & <-).
  exists (Name f). split; [exact Hc|]. split.
  - intros Hp Hs.
    exact (SetField_not_assignable i c j f v V Hr Hc Hf Hv Ha Hp Hs Hcv).
  - intros vElem fElem Hs HeV HeF Hce.
    exact (SetField_element_not_convertible i c j f v V vElem fElem Hr Hc Hf
             Hv Ha Hs Hcv HeV HeF Hce).
Qed.

(** X7: the nil interface as the value makes SetField panic on every
    column of the map, since reflect.TypeOf(nil) is the nil type that
    AssignableTo refuses; the record is left as it is.  On a column that is
    not in the map the same call returns the column-not-found error. *)
Theorem X7_SetField_nil_value (i : Info) (c : string) :
  reachable i ->
  SetField i c VNil
  = if hasColumn i c
    then (Panic "reflect: nil type passed to Type.AssignableTo", i)
    else (Err (ErrColumnNotFound c), i).
Proof.
  intros Hr. apply reachable_InfoInv in Hr. unfold hasColumn.
  destruct (fields i !! c) as [n|] eqn:Hn.
  - destruct (mapped_column i c n Hr Hn)
      as (j & f & v & _ & _ & _ & _ & _ & _ & Hfo).
    unfold SetField, SetField_value. rewrite Hn, Hfo. reflexivity.
  - exact (SetField_not_found i c VNil Hn).
Qed.

(** X8: a slice field and a value that is neither assignable nor
    convertible to it, of a type that has no element type (any type that is
    no pointer, slice or map): SetField panics when it asks the type of the
    value for its element type, and leaves the record as it is. *)
Theorem X8_SetField_slice_field_panics (i : Info) (c : string) (F V : GoType)
    (v : GoValue) :
  reachable i ->
  fieldType i c = Some F ->
  kindOf F = Slice ->
  TypeOf v = Some V ->
  AssignableTo F V = false ->
  ConvertibleTo V F = false ->
  kindOf V <> Ptr -> kindOf V <> Slice -> kindOf V <> Map ->
  SetField i c v = (Panic "reflect: Elem of invalid type", i).
Proof.
  intros Hr HF Hs Hv Ha Hcv HP HS HM.
  pose proof (reachable_InfoInv i Hr) as Hinv.
  destruct (fieldType_field i c F Hinv HF) as (j & f & Hj & Hc & Hf & <-).
  exact (SetField_no_element_type i c j f v V Hr Hc Hf Hv Ha Hs Hcv HP HS HM).
Qed.

End SetField_failures.

(** ** SetField after SetField *)

Section SetField_twice.
Context {ovsdb : Ovsdb}.

Lemma withField_fieldType i j x c :
  wfRecord (obj i) = true ->
  fieldType (withField i j x) c = fieldType i c.
Proof.
  intros Hwf. unfold fieldType. rewrite (withField_fieldSlot i j x c Hwf).
  destruct (withField_frame i j x Hwf) as (_ & _ & -> & _). reflexivity.
Qed.

Lemma withField_withField i j x y :
  withField (withField i j x) j y = withField i j y.
Proof.
  destruct i as [m o t]. unfold withField. simpl.
  destruct o as [| | | | |pt a [[| | | | | | | |st vals]|]| | |];
    try reflexivity.
  simpl. now rewrite list_insert_insert_eq.
Qed.

Lemma withField_comm i j k x y :
  j <> k ->
  withField (withField i j x) k y = withField (withField i k y) j x.
Proof.
  intros Hne. destruct i as [m o t]. unfold withField. simpl.
  destruct o as [| | | | |pt a [[| | | | | | | |st vals]|]| | |];
    try reflexivity.
  simpl. now rewrite list_insert_insert_ne.
Qed.

(** A value of a type assignable to that of the field. *)
Lemma SetField_assignable_by_column i c v F V :
  reachable i ->
  fieldType i c = Some F ->
  TypeOf v = Some V -> kindOf V <> Interface ->
  AssignableTo F V = true ->
  exists j,
    fieldSlot i c = Some j
    /\ SetField i c v = (Ok tt, withField i j (retype v F)).
Proof.
  intros Hr HF Hv HV Ha. pose proof (reachable_InfoInv i Hr) as Hinv.
  destruct (fieldType_field i c F Hinv HF) as (j & f & Hj & Hc & Hf & <-).
  exists j. split; [exact Hj|].
  exact (SetField_assignable i c j f v V Hr Hc Hf Hv HV Ha).
Qed.

(** X9: the last write wins: two assignable values set one after the
    other on the same column leave the Info that the second one alone
    leaves. *)
Theorem X9_SetField_overwrites (i : Info) (c : string) (F V1 V2 : GoType)
    (v1 v2 : GoValue) :
  reachable i ->
  fieldType i c = Some F ->
  TypeOf v1 = Some V1 -> kindOf V1 <> Interface -> AssignableTo F V1 = true ->
  TypeOf v2 = Some V2 -> kindOf V2 <> Interface -> AssignableTo F V2 = true ->
  SetField (snd (SetField i c v1)) c v2 = SetField i c v2.
Proof.
  intros Hr HF Hv1 HV1 Ha1 Hv2 HV2 Ha2.
  pose proof (reachable_InfoInv i Hr) as (Hwf & _).
  pose proof (reach_SetField i c v1 Hr) as Hr1.
  destruct (SetField_assignable_by_column i c v1 F V1 Hr HF Hv1 HV1 Ha1)
    as (j & Hj & E1).
  destruct (SetField_assignable_by_column i c v2 F V2 Hr HF Hv2 HV2 Ha2)
    as (j2 & Hj2 & E2).
  assert (j2 = j) as -> by congruence.
  rewrite E1 in *. simpl in *.
  rewrite <- (withField_fieldType i j (retype v1 F) c Hwf) in HF.
  destruct (SetField_assignable_by_column _ c v2 F V2 Hr1 HF Hv2 HV2 Ha2)
    as (j' & Hj' & E').
  rewrite (withField_fieldSlot i j _ c Hwf) in Hj'.
  assert (j' = j) as -> by congruence.
  rewrite E', E2. now rewrite withField_withField.
Qed.

(** X10: writes to different columns commute: two assignable values set
    on two different columns leave the same Info in either order. *)
Theorem X10_SetField_commutes (i : Info) (c1 c2 : string)
    (F1 F2 V1 V2 : GoType) (v1 v2 : GoValue) :
  reachable i ->
  c1 <> c2 ->
  fieldType i c1 = Some F1 ->
  TypeOf v1 = Some V1 -> kindOf V1 <> Interface -> AssignableTo F1 V1 = true ->
  fieldType i c2 = Some F2 ->
  TypeOf v2 = Some V2 -> kindOf V2 <> Interface -> AssignableTo F2 V2 = true ->
  SetField (snd (SetField i c1 v1)) c2 v2
  = (Ok tt, snd (SetField (snd (SetField i c2 v2)) c1 v1)).
Proof.
  intros Hr Hne HF1 Hv1 HV1 Ha1 HF2 Hv2 HV2 Ha2.
  pose proof (reachable_InfoInv i Hr) as Hinv. pose proof Hinv as (Hwf & _).
  pose proof (reach_SetField i c1 v1 Hr) as Hr1.
  pose proof (reach_SetField i c2 v2 Hr) as Hr2.
  destruct (SetField_assignable_by_column i c1 v1 F1 V1 Hr HF1 Hv1 HV1 Ha1)
    as (j1 & Hj1 & E1).
  destruct (SetField_assignable_by_column i c2 v2 F2 V2 Hr HF2 Hv2 HV2 Ha2)
    as (j2 & Hj2 & E2).
  assert (j1 <> j2) as Hj
    by (intros ->; apply Hne; exact (fieldSlot_inj i c1 c2 j2 Hinv Hj1 Hj2)).
  rewrite E1 in *. rewrite E2 in *. simpl in *.
  rewrite <- (withField_fieldType i j1 (retype v1 F1) c2 Hwf) in HF2.
  rewrite <- (withField_fieldType i j2 (retype v2 F2) c1 Hwf) in HF1.
  destruct (SetField_assignable_by_column _ c2 v2 F2 V2 Hr1 HF2 Hv2 HV2 Ha2)
    as (k2 & Hk2 & E2').
  destruct (SetField_assignable_by_column _ c1 v1 F1 V1 Hr2 HF1 Hv1 HV1 Ha1)
    as (k1 & Hk1 & E1').
  rewrite (withField_fieldSlot i j1 _ c2 Hwf) in Hk2.
  rewrite (withField_fieldSlot i j2 _ c1 Hwf) in Hk1.
  assert (k2 = j2) as -> by congruence.
  assert (k1 = j1) as -> by congruence.
  rewrite E2', E1'. simpl. now rewrite (withField_comm i j1 j2).
Qed.

End SetField_twice.

(** ** SetField keeps the fields typed *)

Section SetField_typed.
Context {ovsdb : Ovsdb}.

#[local] Arguments Value_Convert : simpl never.
#[local] Arguments Value_Len : simpl never.
#[local] Arguments Elem : simpl never.

Lemma retype_not_nil c t : c <> VNil -> retype c t <> VNil.
Proof. destruct c; simpl; congruence. Qed.

Lemma holdsValue_ValueOf v t : TypeOf v = Some t -> holdsValue (ValueOf v).
Proof.
  intros Ht. unfold ValueOf. rewrite Ht. right. intros ->. discriminate.
Qed.

Lemma holdsValue_atType t c : c <> VNil -> holdsValue (atType t c).
Proof.
  intros Hc. unfold atType. case_bool_decide; simpl; [now left|].
  right. now apply retype_not_nil.
Qed.

Lemma Value_Convert_holds src c t y :
  c <> VNil ->
  Value_Convert (E := error) (MkValue src c) t = Ok y -> holdsValue y.
Proof.
  intros Hc. unfold Value_Convert.
  destruct (convertOp t src) as [op|]; [|discriminate].
  destruct op, c; intros [= <-];
    try (now apply holdsValue_atType); right; discriminate.
Qed.

Lemma Append_holds s x y :
  Append (E := error) s x = Ok y -> holdsValue y.
Proof.
  destruct s as [|t c]; [discriminate|]. unfold Append.
  destruct c; try discriminate.
  destruct (Elem t); simpl; try discriminate.
  destruct (assignTo x a) as [[|]| |]; simpl; try discriminate.
  intros [= <-]. right. discriminate.
Qed.

Lemma appendConverted_holds v e idx nv y :
  holdsValue nv ->
  appendConverted v e idx nv = Ok y -> holdsValue y.
Proof.
  revert nv. induction idx as [|k rest IH]; intros nv Hnv; simpl.
  - now intros [= <-].
  - destruct (Value_Index (E := error) v k) as [x| |]; simpl;
      try discriminate.
    destruct (Value_Convert (E := error) x e) as [x'| |]; simpl;
      try discriminate.
    destruct (Append (E := error) nv x') as [nv'| |] eqn:Hap; simpl;
      try discriminate.
    apply IH. exact (Append_holds nv x' nv' Hap).
Qed.

(** What lines 36-73 hand to the store of line 74: the name and the type
    of the field of the column, and a value that holds something. *)
Lemma SetField_value_Ok i c v n F y :
  InfoInv i ->
  SetField_value i c v = Ok (n, F, y) ->
  holdsValue y
  /\ exists j f,
       fieldSlot i c = Some j
       /\ recordFields (obj i) !! j = Some f
       /\ n = Name f /\ F = Typ f.
Proof.
  intros Hinv. unfold SetField_value.
  destruct (fields i !! c) as [m|] eqn:Hm; [|discriminate].
  destruct (mapped_column i c m Hinv Hm)
    as (j & f & v0 & Hj & Hname & _ & _ & Hidx & _ & Hfo).
  rewrite Hfo. simpl.
  assert (fieldSlot i c = Some j) as Hslot
    by (unfold fieldSlot; now rewrite Hm).
  destruct (TypeOf v) as [V|] eqn:HV; simpl; [|discriminate].
  assert (forall y', Ok (E := error) (m, Typ f, y') = Ok (n, F, y) ->
            holdsValue y' ->
            holdsValue y
            /\ exists j f0,
                 fieldSlot i c = Some j
                 /\ recordFields (obj i) !! j = Some f0
                 /\ n = Name f0 /\ F = Typ f0) as Hdone.
  { intros y' [= <- <- <-] Hy. split; [exact Hy|].
    exists j, f. repeat split; auto. }
  destruct (AssignableTo (Typ f) V); simpl.
  1: { intros E. apply (Hdone _ E).
       exact (holdsValue_ValueOf v V HV). }
  destruct (bool_decide (kindOf (Typ f) = Ptr)) eqn:Hp; simpl.
  - assert (AssignableTo (Typ f) reflect_Value = false) as Hrv.
    { apply bool_decide_eq_true in Hp.
      unfold AssignableTo, directlyAssignable, implements.
      rewrite bool_decide_eq_false_2
        by (intros E; rewrite <- E in Hp; discriminate).
      rewrite (bool_decide_eq_false_2 (kindOf reflect_Value = kindOf (Typ f)))
        by (rewrite Hp; discriminate).
      simpl. now rewrite orb_true_r. }
    rewrite Hrv, andb_false_r.
    destruct (OvsToNative (Column (table i) c) v) as [native| |]; simpl;
      try discriminate.
    destruct (TypeOf native) as [N|] eqn:HN.
    2: { unfold ValueOf. rewrite HN. discriminate. }
    unfold ValueOf. rewrite HN. simpl.
    destruct (ConvertibleTo N (Typ f)); simpl.
    + destruct (Value_Convert (E := error) (MkValue N native) (Typ f)) as [y'| |] eqn:Hy;
        simpl; try discriminate.
      intros E. apply (Hdone _ E).
      apply (Value_Convert_holds N native (Typ f) y'); [|exact Hy].
      intros ->. discriminate.
    + rewrite bool_decide_eq_false_2
        by (apply bool_decide_eq_true in Hp; rewrite Hp; discriminate).
      discriminate.
  - unfold ValueOf. rewrite HV. simpl.
    destruct (ConvertibleTo V (Typ f)); simpl.
    + destruct (Value_Convert (E := error) (MkValue V v) (Typ f)) as [y'| |] eqn:Hy;
        simpl; try discriminate.
      intros E. apply (Hdone _ E).
      apply (Value_Convert_holds V v (Typ f) y'); [|exact Hy].
      intros ->. discriminate.
    + destruct (bool_decide (kindOf (Typ f) = Slice)) eqn:Hs; simpl;
        [|discriminate].
      apply bool_decide_eq_true in Hs.
      destruct (Elem (E := error) V); simpl; try discriminate.
      destruct (Elem (E := error) (Typ f)); simpl; try discriminate.
      destruct (negb (ConvertibleTo a a0)); simpl; [discriminate|].
      destruct (Value_Len (E := error) (MkValue V v)); simpl;
        try discriminate.
      destruct (appendConverted (MkValue V v) a0 (seq 0 a1) (Zero (Typ f)))
        as [y'| |] eqn:Hy; simpl; try discriminate.
      intros E. apply (Hdone _ E).
      refine (appendConverted_holds _ _ _ _ y' _ Hy).
      unfold Zero. rewrite (zeroOf_slice _ Hs). right. discriminate.
Qed.

(** X11: SetField keeps the record typed: when every field of the record
    holds a value of the type of the field (a field of interface type may
    hold anything), the same is true after SetField, whatever the column
    and the value. *)
Theorem X11_SetField_keeps_fields_typed (i : Info) (c : string) (v : GoValue) :
  reachable i ->
  typedRecord (obj i) ->
  typedRecord (obj (snd (SetField i c v))).
Proof.
  intros Hr Ht. pose proof (reachable_InfoInv i Hr) as Hinv.
  pose proof Hinv as (Hwf & _).
  unfold SetField.
  destruct (SetField_value i c v) as [[[n F] y]| |] eqn:Hv; simpl;
    try exact Ht.
  destruct (SetField_value_Ok i c v n F y Hinv Hv)
    as (Hy & j & f & Hslot & Hf & -> & ->).
  destruct (fieldSlot_Some i c j Hinv Hslot) as (f' & _ & Hf' & _ & _ & _ & Hidx & _).
  assert (f' = f) as -> by congruence.
  unfold Value_Set, assignTo.
  destruct y as [|t x]; [exact Ht|].
  destruct (directlyAssignable (Typ f) t || implements (Typ f) t) eqn:Ha;
    simpl; [|exact Ht].
  rewrite atType_contentAt.
  rewrite (storeField_withField i (Name f) j _ Hwf Hidx). simpl.
  destruct (withField_frame i j (contentAt (Typ f) x) Hwf)
    as (_ & _ & Er & _ & Ev & _).
  unfold typedRecord. rewrite Er, Ev.
  rewrite <- (list_insert_id (recordFields (obj i)) j f Hf).
  apply Forall2_insert; [exact Ht|].
  unfold contentAt. case_bool_decide as Hk; [now left|]. right.
  apply TypeOf_retype.
  destruct Hy as [Hi|Hx]; [|exact Hx]. exfalso.
  apply orb_true_iff in Ha as [Hd|Him].
  - apply directlyAssignable_kindOf in Hd. congruence.
  - unfold implements in Him. now apply bool_decide_eq_true in Him.
Qed.

End SetField_typed.

(** ** NewInfo, field by field *)

Section NewInfo_fields.
Context {ovsdb : Ovsdb}.

(** The loop of NewInfo stops at the first field that it refuses. *)
Lemma mapFields_find tbl objType fs m :
  mapFields tbl objType fs m
  = match List.find (fun f => negb (fieldOK tbl f)) fs with
    | None => Ok (fold_left addField fs m)
    | Some f =>
        Err (ErrMapper objType (Name f) (Typ f) (Tag f) (reasonOf tbl f))
    end.
Proof.
  revert m. induction fs as [|f fs IH]; intros m; simpl; [reflexivity|].
  destruct (fieldOK tbl f) eqn:Hok; simpl; revert Hok;
    unfold fieldOK, addField, reasonOf; case_bool_decide as Ht;
    try discriminate; [intros _; apply IH | |].
  - destruct (Column tbl (Tag f)) as [column|]; [|discriminate].
    intros ->. apply IH.
  - destruct (Column tbl (Tag f)) as [column|]; [|reflexivity].
    now intros ->.
Qed.

Lemma NewInfo_record_type tbl o :
  wfRecord o = true ->
  NewInfo tbl o
  = (let! m := mapFields tbl (recordType o) (recordFields o) ∅ in
     Ok (mkInfo m o tbl)).
Proof.
  intros Hwf.
  destruct (wfRecord_inv o Hwf) as (pt & a & e & fl & vals & -> & Hpt & He & Hrf & _).
  rewrite Hrf. unfold recordType, Elem. rewrite Hpt.
  unfold NewInfo, ValueOf, Indirect; simpl.
  assert (kindOf pt = Ptr) as Hk by (unfold kindOf; now rewrite Hpt).
  assert (kindOf e = Struct) as Hke by (unfold kindOf; now rewrite He).
  rewrite Hk; simpl. rewrite Hpt. unfold atType.
  rewrite Hke; simpl. rewrite Hke; simpl.
  unfold Fields. rewrite He; simpl. reflexivity.
Qed.

(** X12: on a pointer to a record, NewInfo goes through the fields in
    their order: it returns the ErrMapper of the first tagged field whose
    column the table lacks (the reason says that the column does not exist)
    or whose type fails the type check (the reason names the expected
    type), and when there is no such field it returns the Info whose map
    holds the tags of the record. *)
Theorem X12_NewInfo_first_refused_field (tbl : TableSchema) (o : GoValue) :
  wfRecord o = true ->
  NewInfo tbl o
  = match List.find (fun f => negb (fieldOK tbl f)) (recordFields o) with
    | None => Ok (mkInfo (tagMap (recordFields o)) o tbl)
    | Some f =>
        Err (ErrMapper (recordType o) (Name f) (Typ f) (Tag f)
               (reasonOf tbl f))
    end.
Proof.
  intros Hwf. rewrite (NewInfo_record_type tbl o Hwf), mapFields_find.
  now destruct (List.find _ _).
Qed.

(** X13: NewInfo answers with the wrong-type error every argument that has
    a type which is no pointer type, every pointer to something that is no
    struct, and every nil pointer. *)
Theorem X13_NewInfo_wrong_type (tbl : TableSchema) :
  (forall o t, TypeOf o = Some t -> kindOf t <> Ptr ->
     NewInfo tbl o
     = Err (NewErrWrongType "NewMapperInfo" "pointer to a struct" o))
  /\ (forall pt a g e, underlying pt = TPtr e -> kindOf e <> Struct ->
        NewInfo tbl (VPtr pt a g)
        = Err (NewErrWrongType "NewMapperInfo" "pointer to a struct"
                 (VPtr pt a g)))
  /\ (forall pt a, kindOf pt = Ptr ->
        NewInfo tbl (VPtr pt a None)
        = Err (NewErrWrongType "NewMapperInfo" "pointer to a struct"
                 (VPtr pt a None))).
Proof.
  split; [|split].
  - intros o t Ht Hk. exact (NewInfo_no_pointer tbl o t Ht Hk).
  - intros pt a g e Hpt Hk. exact (NewInfo_no_struct tbl pt a g e Hpt Hk).
  - intros pt a Hk. unfold NewInfo, ValueOf, Indirect. simpl.
    rewrite Hk. simpl. reflexivity.
Qed.

(** A later field does not change the entry of a tag that it does not
    carry. *)
Lemma fold_addField_other fs m c :
  (forall g, g ∈ fs -> Tag g <> c) ->
  fold_left addField fs m !! c = m !! c.
Proof.
  revert m. induction fs as [|g fs IH]; intros m Hno; simpl; [reflexivity|].
  rewrite IH by (intros h Hh; apply Hno; set_solver).
  unfold addField. case_bool_decide; [reflexivity|].
  apply lookup_insert_ne. apply Hno. set_solver.
Qed.

(** X14: when several fields carry the same tag, the last of them is the
    field of the column: the map of the Info names it, and FieldByColumn
    reads it. *)
Theorem X14_NewInfo_last_tag_wins (tbl : TableSchema) (o : GoValue) (i : Info)
    (before after : list StructField) (f : StructField) :
  wfRecord o = true ->
  NewInfo tbl o = Ok i ->
  recordFields o = (before ++ f :: after)%list ->
  Tag f <> "" ->
  (forall g, g ∈ after -> Tag g <> Tag f) ->
  fields i !! Tag f = Some (Name f)
  /\ exists v,
       recordValues o !! length before = Some v
       /\ FieldByColumn i (Tag f) = Ok v.
Proof.
  intros Hwf Hi Hfs Ht Hafter.
  pose proof (NewInfo_InfoInv tbl o i Hwf Hi) as Hinv.
  destruct (NewInfo_Ok_inv tbl o i Hwf Hi) as [_ Ei].
  assert (obj i = o) as Eo by (rewrite Ei; reflexivity).
  assert (fields i !! Tag f = Some (Name f)) as Hmap.
  { rewrite Ei. simpl. unfold tagMap. rewrite Hfs, fold_left_app. simpl.
    rewrite (fold_addField_other after _ (Tag f) Hafter).
    unfold addField. rewrite bool_decide_eq_false_2 by exact Ht.
    apply lookup_insert_eq. }
  split; [exact Hmap|].
  assert (recordFields (obj i) !! length before = Some f) as Hj.
  { rewrite Eo, Hfs. rewrite lookup_app_r by lia.
    now rewrite Nat.sub_diag. }
  destruct (mapped_field i (Tag f) (length before) f Hinv Hmap Hj)
    as (Hidx & v0 & Hfo).
  assert (fieldSlot i (Tag f) = Some (length before)) as Hslot
    by (unfold fieldSlot; now rewrite Hmap).
  destruct (FieldByColumn_slot i (Tag f) _ Hinv Hslot) as (v & Hv & Hget).
  exists v. rewrite <- Eo. split; assumption.
Qed.

Lemma recordFields_TypeOf o o' :
  TypeOf o = TypeOf o' -> wfRecord o = true -> wfRecord o' = true ->
  recordFields o = recordFields o' /\ recordType o = recordType o'.
Proof.
  intros Ht Hwf Hwf'.
  destruct (wfRecord_inv o Hwf) as (pt & a & e & fl & vals & -> & _).
  destruct (wfRecord_inv o' Hwf') as (pt' & a' & e' & fl' & vals' & -> & _).
  simpl in Ht. injection Ht as ->. split; reflexivity.
Qed.

(** X15: NewInfo looks at the type of the record only: on two records of
    the same type it fails with the same error or succeeds with the same
    map, each Info holding its own record. *)
Theorem X15_NewInfo_depends_on_type_only (tbl : TableSchema) (o o' : GoValue) :
  wfRecord o = true -> wfRecord o' = true ->
  TypeOf o = TypeOf o' ->
  match NewInfo tbl o with
  | Ok i => NewInfo tbl o' = Ok (mkInfo (fields i) o' tbl) /\ obj i = o
  | Err e => NewInfo tbl o' = Err e
  | Panic m => NewInfo tbl o' = Panic m
  end.
Proof.
  intros Hwf Hwf' Ht.
  destruct (recordFields_TypeOf o o' Ht Hwf Hwf') as [Ef Et].
  rewrite (NewInfo_record_type tbl o Hwf), (NewInfo_record_type tbl o' Hwf').
  rewrite <- Ef, <- Et.
  destruct (mapFields tbl (recordType o) (recordFields o) ∅); simpl;
    [split|..]; reflexivity.
Qed.

End NewInfo_fields.

(** ** The layout of a struct *)

Section layout_facts.

Lemma Align_pos : forall t, 1 <= Align t
with maxAlign_pos : forall fs, 1 <= maxAlign fs.
Proof.
  - intros t. destruct t; simpl; try lia.
    + apply Align_pos.
    + apply maxAlign_pos.
  - intros fs. destruct fs; simpl; [lia|].
    pose proof (maxAlign_pos fs). lia.
Qed.

Lemma Rnd_ge o a : 0 < a -> o <= Rnd o a.
Proof.
  intros Ha. unfold Rnd.
  pose proof (Z.div_mod (o + a - 1) a ltac:(lia)) as Hdm.
  pose proof (Z.mod_pos_bound (o + a - 1) a Ha) as Hm.
  nia.
Qed.

Lemma Rnd_0 a : 0 < a -> Rnd 0 a = 0.
Proof.
  intros Ha. unfold Rnd. rewrite Z.div_small by lia. reflexivity.
Qed.

Lemma Size_nonneg : forall t, 0 <= Size t
with endOf_ge : forall fs o lastzero, 0 <= o -> o <= fst (endOf fs o lastzero).
Proof.
  - intros t. destruct t; simpl; try lia.
    + apply Size_nonneg.
    + pose proof (endOf_ge fs 0 0 ltac:(lia)) as H.
      destruct (endOf fs 0 0) as [o lastzero]. simpl in H.
      pose proof (maxAlign_pos fs).
      destruct ((0 <? o) && (o =? lastzero)).
      * pose proof (Rnd_ge (o + 1) (maxAlign fs) ltac:(lia)). lia.
      * pose proof (Rnd_ge o (maxAlign fs) ltac:(lia)). lia.
  - intros fs. destruct fs as [|n ty tag r]; intros o lastzero Ho; simpl;
      [lia|].
    pose proof (Align_pos ty). pose proof (Size_nonneg ty).
    pose proof (Rnd_ge o (Align ty) ltac:(lia)).
    pose proof (endOf_ge r (Rnd o (Align ty) + Size ty)
                  (if Size ty =? 0 then Rnd o (Align ty) else lastzero)
                  ltac:(lia)).
    lia.
Qed.

(** No field lies before the offset at which the layout starts. *)
Lemma layoutFrom_lower fs : forall o f, f ∈ layoutFrom fs o -> o <= Offset f.
Proof.
  induction fs as [|n ty tag r IH]; intros o f Hf; simpl in Hf.
  - set_solver.
  - pose proof (Rnd_ge o (Align ty) ltac:(pose proof (Align_pos ty); lia)).
    apply elem_of_cons in Hf as [->|Hf]; simpl; [exact H|].
    apply IH in Hf. pose proof (Size_nonneg ty). lia.
Qed.

(** A field of positive size lies before every later field. *)
Lemma layoutFrom_increasing fs :
  forall o k j g f,
    (k < j)%nat ->
    layoutFrom fs o !! k = Some g ->
    layoutFrom fs o !! j = Some f ->
    0 < Size (Typ g) ->
    Offset g < Offset f.
Proof.
  induction fs as [|n ty tag r IH]; intros o k j g f Hkj Hk Hj Hsize;
    simpl in *; [discriminate|].
  destruct j as [|j]; [lia|]. simpl in Hj.
  destruct k as [|k]; simpl in Hk.
  - injection Hk as <-. simpl in *.
    apply list_elem_of_lookup_2, layoutFrom_lower in Hj. lia.
  - apply (IH (Rnd o (Align ty) + Size ty) k j g f); [lia | assumption..].
Qed.

(** The first field of a struct lies at offset 0. *)
Lemma layoutFrom_first fs f : layoutFrom fs 0 !! O = Some f -> Offset f = 0.
Proof.
  destruct fs as [|n ty tag r]; simpl; [discriminate|].
  intros [= <-]. simpl. apply Rnd_0. pose proof (Align_pos ty). lia.
Qed.

End layout_facts.

(** ** ColumnByPtr and the other operations *)

Section ColumnByPtr_more.
Context {ovsdb : Ovsdb}.

(** A pointer to a tagged field that no earlier field shares its offset
    with resolves to the column of the field. *)
Lemma ColumnByPtr_field i j f :
  InfoInv i ->
  recordFields (obj i) !! j = Some f -> Tag f <> "" ->
  (forall k g, (k < j)%nat -> recordFields (obj i) !! k = Some g ->
               Offset g <> Offset f) ->
  ColumnByPtr i (fieldPtr (obj i) j) = Ok (Tag f).
Proof.
  intros Hinv Hj Ht Hfirst. unfold fieldPtr. rewrite Hj.
  rewrite (ColumnByPtr_pointer i _ _ _ Hinv) by reflexivity.
  rewrite columnAtOffset_fieldAt.
  pose proof Hinv as (Hwf & _).
  destruct (wfRecord_inv _ Hwf)
    as (pt & a0 & e & fl & vals & _ & _ & _ & _ & _ & _ & Hoff).
  rewrite Forall_forall in Hoff.
  assert (0 <= Offset f < 2 ^ 64) as Hrange
    by (apply Hoff; now apply list_elem_of_lookup_2 with j).
  replace (recordAddr (obj i) + Offset f - recordAddr (obj i)) with (Offset f)
    by lia.
  rewrite Z.mod_small by exact Hrange.
  rewrite (fieldAt_first _ j f Hj Hfirst).
  destruct (tagged_lookup i f Hinv ltac:(now apply list_elem_of_lookup_2 with j))
    as [_ Hsome].
  now destruct (Hsome Ht) as [n ->].
Qed.

(** X16: resolving a pointer to a field and reading the column gives what
    the pointer points at: for a tagged field that shares neither its
    offset with an earlier field nor its tag with another field,
    ColumnByPtr returns its column and FieldByColumn on that column returns
    the value of the field. *)
Theorem X16_ColumnByPtr_then_FieldByColumn (i : Info) (j : nat)
    (f : StructField) :
  reachable i ->
  recordFields (obj i) !! j = Some f -> Tag f <> "" ->
  (forall k g, (k < j)%nat -> recordFields (obj i) !! k = Some g ->
               Offset g <> Offset f) ->
  (forall k g, recordFields (obj i) !! k = Some g -> Tag g = Tag f -> k = j) ->
  exists column v,
    ColumnByPtr i (fieldPtr (obj i) j) = Ok column
    /\ FieldByColumn i column = Ok v
    /\ recordValues (obj i) !! j = Some v
    /\ fieldPtr (obj i) j
       = VPtr (TPtr (Typ f)) (recordAddr (obj i) + Offset f) (Some v).
Proof.
  intros Hr Hj Ht Hfirst Huniq. pose proof (reachable_InfoInv i Hr) as Hinv.
  pose proof Hinv as (_ & Hmap & _).
  assert (fields i !! Tag f = Some (Name f)) as Hc.
  { destruct (tagged_lookup i f Hinv ltac:(now apply list_elem_of_lookup_2 with j))
      as [_ Hsome].
    destruct (Hsome Ht) as [n Hn]. rewrite Hn. f_equal.
    rewrite Hmap in Hn.
    apply tagMap_lookup_Some in Hn as (_ & g & Hg & Hgt & <-).
    apply list_elem_of_lookup in Hg as [k Hk].
    assert (k = j) as -> by exact (Huniq k g Hk Hgt). congruence. }
  destruct (mapped_field i (Tag f) j f Hinv Hc Hj) as (Hidx & _).
  assert (fieldSlot i (Tag f) = Some j) as Hslot
    by (unfold fieldSlot; now rewrite Hc).
  destruct (FieldByColumn_slot i (Tag f) j Hinv Hslot) as (v & Hv & Hget).
  exists (Tag f), v. split; [exact (ColumnByPtr_field i j f Hinv Hj Ht Hfirst)|].
  split; [exact Hget|]. split; [exact Hv|].
  unfold fieldPtr. now rewrite Hj, Hv.
Qed.

Lemma columnAtOffset_fields i i' offset fs :
  fields i = fields i' ->
  columnAtOffset i offset fs = columnAtOffset i' offset fs.
Proof.
  intros E. induction fs as [|f rest IH]; simpl; [reflexivity|].
  now rewrite E, IH.
Qed.

Lemma ColumnByPtr_withField i j x p :
  wfRecord (obj i) = true ->
  ColumnByPtr (withField i j x) p = ColumnByPtr i p.
Proof.
  intros Hwf.
  destruct (wfRecord_inv _ Hwf) as (pt & a & e & fl & vals & Ho & _).
  destruct i as [m o t]. simpl in Ho. subst o.
  unfold ColumnByPtr, withField. simpl.
  destruct (negb _); [reflexivity|].
  destruct (Value_Pointer (ValueOf p)); [|reflexivity..].
  simpl. destruct (Elem pt); [|reflexivity..].
  simpl. destruct (Fields _); [|reflexivity..].
  simpl. now apply columnAtOffset_fields.
Qed.

(** X17: SetField moves no field: after it, whatever its outcome,
    ColumnByPtr resolves every pointer as before, and hasColumn answers as
    before. *)
Theorem X17_SetField_keeps_ColumnByPtr (i : Info) (c : string) (v : GoValue) :
  reachable i ->
  (forall p, ColumnByPtr (snd (SetField i c v)) p = ColumnByPtr i p)
  /\ (forall c', hasColumn (snd (SetField i c v)) c' = hasColumn i c').
Proof.
  intros Hr. pose proof (reachable_InfoInv i Hr) as (Hwf & _).
  destruct (SetField_outcome i c v) as [(j & x & Hj & ->)|[_ ->]];
    [|split; reflexivity].
  simpl. split.
  - intros p. exact (ColumnByPtr_withField i j x p Hwf).
  - intros c'. unfold hasColumn.
    now destruct (withField_frame i j x Hwf) as (-> & _).
Qed.

(** X18: ColumnByPtr looks at the address of the pointer only: neither at
    the type of the pointer nor at what it points to; so the pointer to
    the record itself resolves as the pointer to its first field does. *)
Theorem X18_ColumnByPtr_address_only (i : Info) :
  reachable i ->
  (forall t t' a g g', kindOf t = Ptr -> kindOf t' = Ptr ->
     ColumnByPtr i (VPtr t a g) = ColumnByPtr i (VPtr t' a g'))
  /\ (forall f, recordFields (obj i) !! O = Some f ->
        ColumnByPtr i (obj i) = ColumnByPtr i (fieldPtr (obj i) 0)).
Proof.
  intros Hr. pose proof (reachable_InfoInv i Hr) as Hinv.
  split.
  - intros t t' a g g' Hk Hk'.
    now rewrite (ColumnByPtr_pointer i t a g Hinv Hk),
                (ColumnByPtr_pointer i t' a g' Hinv Hk').
  - intros f Hf. pose proof Hinv as (Hwf & _).
    destruct (wfRecord_inv _ Hwf)
      as (pt & a & e & fl & vals & Ho & Hpt & _ & Hrf & _).
    assert (Offset f = 0) as H0.
    { rewrite Hrf in Hf. exact (layoutFrom_first fl f Hf). }
    unfold fieldPtr. rewrite Hf, H0, Z.add_0_r. rewrite Ho at 1. simpl.
    assert (kindOf pt = Ptr) as Hk by (unfold kindOf; now rewrite Hpt).
    rewrite (ColumnByPtr_pointer i pt a _ Hinv Hk).
    rewrite (ColumnByPtr_pointer i (TPtr (Typ f)) _ _ Hinv eq_refl).
    now rewrite Ho.
Qed.

(** X19: in a record none of whose fields has size zero, the fields lie
    at different offsets, and ColumnByPtr resolves the pointer to every
    tagged field to the column of the field. *)
Theorem X19_ColumnByPtr_without_zero_size_fields (i : Info) (j : nat)
    (f : StructField) :
  reachable i ->
  (forall g, g ∈ recordFields (obj i) -> 0 < Size (Typ g)) ->
  recordFields (obj i) !! j = Some f -> Tag f <> "" ->
  ColumnByPtr i (fieldPtr (obj i) j) = Ok (Tag f).
Proof.
  intros Hr Hsize Hj Ht. pose proof (reachable_InfoInv i Hr) as Hinv.
  apply (ColumnByPtr_field i j f Hinv Hj Ht).
  intros k g Hk Hg.
  pose proof Hinv as (Hwf & _).
  destruct (wfRecord_inv _ Hwf)
    as (pt & a & e & fl & vals & _ & _ & _ & Hrf & _).
  pose proof (Hsize g ltac:(now apply list_elem_of_lookup_2 with k)) as Hpos.
  rewrite Hrf in Hg, Hj.
  pose proof (layoutFrom_increasing fl 0 k j g f Hk Hg Hj Hpos). lia.
Qed.

End ColumnByPtr_more.

(** ** The valid indexes and SetField *)

Section getValidIndexes_more.
Context {ovsdb : Ovsdb}.

Lemma SetField_other_column i c c' v :
  InfoInv i -> c' <> c ->
  FieldByColumn (snd (SetField i c v)) c' = FieldByColumn i c'.
Proof.
  intros Hinv Hne.
  destruct (SetField_outcome i c v) as [(j & x & Hj & ->)|[_ ->]];
    [|reflexivity].
  simpl. rewrite (FieldByColumn_withField i j x c' Hinv).
  rewrite bool_decide_eq_false_2; [reflexivity|].
  intros Hj'. apply Hne. exact (fieldSlot_inj i c' c j Hinv Hj' Hj).
Qed.

Lemma nonDefault_SetField_other i c c' v :
  InfoInv i -> c' <> c ->
  nonDefault (snd (SetField i c v)) c' = nonDefault i c'.
Proof.
  intros Hinv Hne. unfold nonDefault.
  rewrite (SetField_other_column i c c' v Hinv Hne).
  now destruct (SetField_frame i c v) as (_ & -> & _).
Qed.

Lemma forallb_nonDefault_SetField i c v idx :
  InfoInv i -> c ∉ idx ->
  forallb (nonDefault (snd (SetField i c v))) idx
  = forallb (nonDefault i) idx.
Proof.
  intros Hinv. induction idx as [|col rest IH]; intros Hc; [reflexivity|].
  simpl. apply not_elem_of_cons in Hc as [Hne Hrest].
  rewrite (nonDefault_SetField_other i c col v Hinv) by congruence.
  now rewrite (IH Hrest).
Qed.

(** X20: SetField on a column changes the validity of the index groups
    that contain the column only: a group without the column is among the
    valid indexes after the call exactly when it was before, and when no
    group contains the column, getValidIndexes returns the same list. *)
Theorem X20_SetField_keeps_other_indexes (i : Info) (c : string)
    (v : GoValue) :
  reachable i ->
  exists before after,
    getValidIndexes i = Ok before
    /\ getValidIndexes (snd (SetField i c v)) = Ok after
    /\ (forall idx, c ∉ idx -> (idx ∈ after <-> idx ∈ before))
    /\ ((forall idx, idx ∈ ["_uuid"] :: Indexes (table i) -> c ∉ idx) ->
        after = before).
Proof.
  intros Hr. pose proof (reachable_InfoInv i Hr) as Hinv.
  pose proof (SetField_InfoInv i c v Hinv) as Hinv'.
  pose proof (SetField_frame i c v) as (_ & Ht & _). simpl in Ht.
  eexists _, _. split; [exact (getValidIndexes_filter i Hinv)|].
  split; [exact (getValidIndexes_filter _ Hinv')|]. rewrite Ht. split.
  - intros idx Hc. rewrite !list_elem_of_In, !filter_In.
    now rewrite (forallb_nonDefault_SetField i c v idx Hinv Hc).
  - intros Hout. apply filter_ext_in. intros idx Hidx.
    apply list_elem_of_In in Hidx.
    exact (forallb_nonDefault_SetField i c v idx Hinv (Hout idx Hidx)).
Qed.

(** X21: setting a column to a value of the type of its field that
    IsDefaultValue does not take for a default makes valid every index
    group whose other columns hold non-default values. *)
Theorem X21_SetField_validates_index (i : Info) (c : string) (v : GoValue)
    (F : GoType) (columnSchema : ColumnSchema) (idx : list string) :
  reachable i ->
  fieldType i c = Some F ->
  TypeOf v = Some F -> kindOf F <> Interface ->
  Column (table i) c = Some columnSchema ->
  IsDefaultValue columnSchema v = false ->
  idx ∈ ["_uuid"] :: Indexes (table i) ->
  (forall col, col ∈ idx -> col <> c -> nonDefault i col = true) ->
  exists validIndexes,
    getValidIndexes (snd (SetField i c v)) = Ok validIndexes
    /\ idx ∈ validIndexes.
Proof.
  intros Hr HF HV Hk Hcs Hdef Hidx Hothers.
  pose proof (reachable_InfoInv i Hr) as Hinv.
  pose proof (SetField_InfoInv i c v Hinv) as Hinv'.
  pose proof (SetField_frame i c v) as (_ & Ht & _). simpl in Ht.
  eexists. split; [exact (getValidIndexes_filter _ Hinv')|].
  rewrite Ht, list_elem_of_In, filter_In. split; [now apply list_elem_of_In|].
  apply forallb_forall. intros col Hcol. apply list_elem_of_In in Hcol.
  destruct (decide (col = c)) as [->|Hne].
  - assert (AssignableTo F F = true) as Ha.
    { unfold AssignableTo. now rewrite directlyAssignable_refl. }
    destruct (SetField_assignable_by_column i c v F F Hr HF HV Hk Ha)
      as (j & Hj & ->).
    simpl. unfold nonDefault.
    rewrite (FieldByColumn_withField i j _ c Hinv).
    rewrite bool_decide_eq_true_2 by exact Hj.
    destruct (withField_frame i j (retype v F)) as (_ & -> & _);
      [now destruct Hinv|].
    rewrite Hcs, (retype_TypeOf v F HV), Hdef.
    unfold ValueOf. now rewrite HV.
  - rewrite (nonDefault_SetField_other i c col v Hinv Hne).
    now apply Hothers.
Qed.

End getValidIndexes_more.

(** * The further properties on the Bridge table *)

(** X1 on [br0]: the name "br1" is stored and read back. *)
Lemma X1_SetField_then_FieldByColumn_witness :
  reachable br0Info
  /\ fst (SetField br0Info "name" (VString TString "br1")) = Ok tt
  /\ FieldByColumn (snd (SetField br0Info "name" (VString TString "br1")))
       "name"
     = Ok (VString TString "br1").
Proof.
  split; [by_NewInfo bridgeTable br0|].
  destruct (X1_SetField_then_FieldByColumn br0Info "name"
              (VString TString "br1") TString TString
              ltac:(by_NewInfo bridgeTable br0)
              ltac:(vm_compute; reflexivity) eq_refl ltac:(discriminate)
              eq_refl) as (H1 & _ & H3).
  split; [exact H1 | exact (H3 eq_refl)].
Defined.

(** X2 on [br0]: setting the name leaves the column _uuid as it reads. *)
Lemma X2_SetField_keeps_other_columns_witness :
  reachable br0Info
  /\ "_uuid" <> "name"
  /\ FieldByColumn (snd (SetField br0Info "name" (VString TString "br1")))
       "_uuid"
     = FieldByColumn br0Info "_uuid".
Proof.
  split; [by_NewInfo bridgeTable br0|]. split; [discriminate|].
  apply (X2_SetField_keeps_other_columns br0Info "name" "_uuid").
  - by_NewInfo bridgeTable br0.
  - discriminate.
Defined.

(** X3 on [sw0]: the field Type, a DatapathType, takes the string
    "netdev". *)
Lemma X3_SetField_enum_from_string_witness :
  reachable sw0Info
  /\ fieldType sw0Info "datapath_type" = Some DatapathType
  /\ fst (SetField sw0Info "datapath_type" (VString TString "netdev")) = Ok tt
  /\ FieldByColumn
       (snd (SetField sw0Info "datapath_type" (VString TString "netdev")))
       "datapath_type"
     = Ok (VString DatapathType "netdev").
Proof.
  split; [by_NewInfo bridgeTable sw0|].
  split; [vm_compute; reflexivity|].
  apply (X3_SetField_enum_from_string sw0Info "datapath_type" DatapathType
           TString "netdev").
  - by_NewInfo bridgeTable sw0.
  - vm_compute; reflexivity.
  - reflexivity.
  - reflexivity.
  - discriminate.
Defined.

(** X4 on [sw0]: the field Ports, a []PortName, takes a []string. *)
Lemma X4_SetField_slice_elementwise_witness :
  reachable sw0Info
  /\ fieldType sw0Info "ports" = Some (TSlice PortName)
  /\ fst (SetField sw0Info "ports"
            (VSlice (TSlice TString)
               (Some [VString TString "p1"; VString TString "p2"])))
     = Ok tt
  /\ FieldByColumn
       (snd (SetField sw0Info "ports"
               (VSlice (TSlice TString)
                  (Some [VString TString "p1"; VString TString "p2"]))))
       "ports"
     = Ok (VSlice (TSlice PortName)
             (Some [VString PortName "p1"; VString PortName "p2"])).
Proof.
  split; [by_NewInfo bridgeTable sw0|].
  split; [vm_compute; reflexivity|].
  apply (X4_SetField_slice_elementwise sw0Info "ports" (TSlice PortName)
           (TSlice TString)
           (Some [VString TString "p1"; VString TString "p2"])
           TString PortName).
  - by_NewInfo bridgeTable sw0.
  - vm_compute; reflexivity.
  - reflexivity.
  - reflexivity.
  - reflexivity.
  - reflexivity.
  - reflexivity.
  - reflexivity.
Defined.


(** X6 on [br0]: a bool for the column name is refused. *)
Lemma X6_SetField_conversion_errors_witness :
  reachable br0Info
  /\ fieldType br0Info "name" = Some TString
  /\ AssignableTo TString TBool = false
  /\ ConvertibleTo TBool TString = false
  /\ SetField br0Info "name" (VBool TBool true)
     = (Err (ErrNotAssignable "name" (VBool TBool true) "Name" TString),
        br0Info).
Proof.
  split; [by_NewInfo bridgeTable br0|].
  split; [vm_compute; reflexivity|]. split; [reflexivity|].
  split; [reflexivity|].
  destruct (X6_SetField_conversion_errors br0Info "name" TString TBool
              (VBool TBool true)
              ltac:(by_NewInfo bridgeTable br0)
              ltac:(vm_compute; reflexivity) eq_refl eq_refl eq_refl)
    as (n & Hn & Herr & _).
  assert (n = "Name") as -> by (vm_compute in Hn; congruence).
  apply Herr; discriminate.
Defined.

(** X7 on [br0]: nil for the column name panics. *)
Lemma X7_SetField_nil_value_witness :
  reachable br0Info
  /\ SetField br0Info "name" VNil
     = (Panic "reflect: nil type passed to Type.AssignableTo", br0Info).
Proof.
  split; [by_NewInfo bridgeTable br0|].
  exact (X7_SetField_nil_value br0Info "name"
           ltac:(by_NewInfo bridgeTable br0)).
Defined.

(** X8 on [br0]: an int for the column ports panics. *)
Lemma X8_SetField_slice_field_panics_witness :
  reachable br0Info
  /\ fieldType br0Info "ports" = Some (TSlice TString)
  /\ SetField br0Info "ports" (VInt TInt 3)
     = (Panic "reflect: Elem of invalid type", br0Info).
Proof.
  split; [by_NewInfo bridgeTable br0|].
  split; [vm_compute; reflexivity|].
  apply (X8_SetField_slice_field_panics br0Info "ports" (TSlice TString) TInt
           (VInt TInt 3)).
  - by_NewInfo bridgeTable br0.
  - vm_compute; reflexivity.
  - reflexivity.
  - reflexivity.
  - reflexivity.
  - reflexivity.
  - discriminate.
  - discriminate.
  - discriminate.
Defined.

(** X9 on [br0]: the name set to "a" and then to "b" is as the name set to
    "b". *)
Lemma X9_SetField_overwrites_witness :
  reachable br0Info
  /\ SetField (snd (SetField br0Info "name" (VString TString "a"))) "name"
       (VString TString "b")
     = SetField br0Info "name" (VString TString "b").
Proof.
  split; [by_NewInfo bridgeTable br0|].
  apply (X9_SetField_overwrites br0Info "name" TString TString TString).
  - by_NewInfo bridgeTable br0.
  - vm_compute; reflexivity.
  - reflexivity.
  - discriminate.
  - reflexivity.
  - reflexivity.
  - discriminate.
  - reflexivity.
Defined.

(** X10 on [br0]: the name and the UUID are set in either order. *)
Lemma X10_SetField_commutes_witness :
  reachable br0Info
  /\ "name" <> "_uuid"
  /\ SetField (snd (SetField br0Info "name" (VString TString "a"))) "_uuid"
       (VString TString "u2")
     = (Ok tt,
        snd (SetField (snd (SetField br0Info "_uuid" (VString TString "u2")))
               "name" (VString TString "a"))).
Proof.
  split; [by_NewInfo bridgeTable br0|]. split; [discriminate|].
  apply (X10_SetField_commutes br0Info "name" "_uuid" TString TString TString
           TString).
  - by_NewInfo bridgeTable br0.
  - discriminate.
  - vm_compute; reflexivity.
  - reflexivity.
  - discriminate.
  - reflexivity.
  - vm_compute; reflexivity.
  - reflexivity.
  - discriminate.
  - reflexivity.
Defined.

(** X11 on [br0]: the record is typed, and stays so. *)
Lemma X11_SetField_keeps_fields_typed_witness :
  reachable br0Info
  /\ typedRecord (obj br0Info)
  /\ typedRecord
       (obj (snd (SetField br0Info "fail_mode" (VString TString "secure")))).
Proof.
  assert (typedRecord (obj br0Info)) as Ht
    by (repeat constructor; right; reflexivity).
  split; [by_NewInfo bridgeTable br0|]. split; [exact Ht|].
  apply (X11_SetField_keeps_fields_typed br0Info "fail_mode"
           (VString TString "secure")).
  - by_NewInfo bridgeTable br0.
  - exact Ht.
Defined.

(** X12 on [br0]: NewInfo is told by the first refused field of a
    Bridge, if any. *)
Lemma X12_NewInfo_first_refused_field_witness :
  wfRecord br0 = true
  /\ NewInfo bridgeTable br0
     = match List.find (fun f => negb (fieldOK (ovsdb := exOvsdb) bridgeTable f))
               (recordFields br0) with
       | None => Ok (mkInfo (tagMap (recordFields br0)) br0 bridgeTable)
       | Some f =>
           Err (ErrMapper (recordType br0) (Name f) (Typ f) (Tag f)
                  (reasonOf (ovsdb := exOvsdb) bridgeTable f))
       end.
Proof.
  split; [vm_compute; reflexivity|].
  apply (X12_NewInfo_first_refused_field (ovsdb := exOvsdb) bridgeTable br0).
  vm_compute; reflexivity.
Defined.

(** X14 on [renamed]: the column name is the field New. *)
Lemma X14_NewInfo_last_tag_wins_witness :
  wfRecord renamed = true
  /\ recordFields renamed
     = [mkField "Old" TString "name" 0; mkField "New" TString "name" 16]
  /\ forall i, NewInfo bridgeTable renamed = Ok i ->
       fields i !! "name" = Some "New"
       /\ exists v, recordValues renamed !! 1%nat = Some v
                    /\ FieldByColumn i "name" = Ok v.
Proof.
  split; [vm_compute; reflexivity|]. split; [reflexivity|].
  intros i Hi.
  apply (X14_NewInfo_last_tag_wins (ovsdb := exOvsdb) bridgeTable renamed i
           [mkField "Old" TString "name" 0]
           [] (mkField "New" TString "name" 16)).
  - vm_compute; reflexivity.
  - exact Hi.
  - reflexivity.
  - discriminate.
  - intros g Hg. inversion Hg.
Defined.

(** X15 on [br0] and [br1]: two Bridges get the same map. *)
Lemma X15_NewInfo_depends_on_type_only_witness :
  wfRecord br0 = true /\ wfRecord br1 = true
  /\ TypeOf br0 = TypeOf br1
  /\ match NewInfo bridgeTable br0 with
     | Ok i => NewInfo bridgeTable br1 = Ok (mkInfo (fields i) br1 bridgeTable)
               /\ obj i = br0
     | Err e => NewInfo bridgeTable br1 = Err e
     | Panic m => NewInfo bridgeTable br1 = Panic m
     end.
Proof.
  split; [vm_compute; reflexivity|]. split; [vm_compute; reflexivity|].
  split; [reflexivity|].
  apply (X15_NewInfo_depends_on_type_only (ovsdb := exOvsdb) bridgeTable br0
           br1).
  - vm_compute; reflexivity.
  - vm_compute; reflexivity.
  - reflexivity.
Defined.

(** X16 on [br0]: the pointer to the field Name resolves to the column
    name, which reads "br0". *)
Lemma X16_ColumnByPtr_then_FieldByColumn_witness :
  reachable br0Info
  /\ exists column v,
       ColumnByPtr br0Info (fieldPtr (obj br0Info) 1) = Ok column
       /\ FieldByColumn br0Info column = Ok v
       /\ recordValues (obj br0Info) !! 1%nat = Some v
       /\ fieldPtr (obj br0Info) 1
          = VPtr (TPtr TString) (4096 + 16) (Some v).
Proof.
  split; [by_NewInfo bridgeTable br0|].
  apply (X16_ColumnByPtr_then_FieldByColumn br0Info 1
           (mkField "Name" TString "name" 16)).
  - by_NewInfo bridgeTable br0.
  - reflexivity.
  - discriminate.
  - intros k g Hk Hg. assert (k = O) as -> by lia.
    injection Hg as <-. discriminate.
  - intros k g Hg Htag.
    do 5 (destruct k as [|k]; [injection Hg as <-; try reflexivity;
                               discriminate Htag|]).
    discriminate Hg.
Defined.

(** X17 on [br0]: after the name is set, the pointer to the field Name
    resolves as before. *)
Lemma X17_SetField_keeps_ColumnByPtr_witness :
  reachable br0Info
  /\ ColumnByPtr (snd (SetField br0Info "name" (VString TString "br1")))
       (fieldPtr br0 1)
     = ColumnByPtr br0Info (fieldPtr br0 1).
Proof.
  split; [by_NewInfo bridgeTable br0|].
  destruct (X17_SetField_keeps_ColumnByPtr br0Info "name"
              (VString TString "br1") ltac:(by_NewInfo bridgeTable br0))
    as [H _].
  exact (H (fieldPtr br0 1)).
Defined.

(** X18 on [br0]: the pointer to the record resolves as the pointer to the
    field UUID. *)
Lemma X18_ColumnByPtr_address_only_witness :
  reachable br0Info
  /\ ColumnByPtr br0Info (obj br0Info)
     = ColumnByPtr br0Info (fieldPtr (obj br0Info) 0).
Proof.
  split; [by_NewInfo bridgeTable br0|].
  destruct (X18_ColumnByPtr_address_only br0Info
              ltac:(by_NewInfo bridgeTable br0)) as [_ H].
  exact (H (mkField "UUID" TString "_uuid" 0) eq_refl).
Defined.

(** X19 on [br0]: no field of a Bridge has size zero, and the pointer to
    the field Ports resolves to the column ports. *)
Lemma X19_ColumnByPtr_without_zero_size_fields_witness :
  reachable br0Info
  /\ (forall g, g ∈ recordFields (obj br0Info) -> 0 < Size (Typ g))
  /\ ColumnByPtr br0Info (fieldPtr (obj br0Info) 2) = Ok "ports".
Proof.
  assert (forall g, g ∈ recordFields (obj br0Info) -> 0 < Size (Typ g))
    as Hsize by (apply Forall_forall; repeat constructor).
  split; [by_NewInfo bridgeTable br0|]. split; [exact Hsize|].
  apply (X19_ColumnByPtr_without_zero_size_fields br0Info 2
           (mkField "Ports" (TSlice TString) "ports" 32)).
  - by_NewInfo bridgeTable br0.
  - exact Hsize.
  - reflexivity.
  - discriminate.
Defined.

(** X20 on [br0]: the column ports is in no index group, and setting it
    leaves the valid indexes as they are. *)
Lemma X20_SetField_keeps_other_indexes_witness :
  reachable br0Info
  /\ getValidIndexes
       (snd (SetField br0Info "ports"
               (VSlice (TSlice TString) (Some [VString TString "p1"]))))
     = getValidIndexes br0Info.
Proof.
  split; [by_NewInfo bridgeTable br0|].
  destruct (X20_SetField_keeps_other_indexes br0Info "ports"
              (VSlice (TSlice TString) (Some [VString TString "p1"]))
              ltac:(by_NewInfo bridgeTable br0))
    as (before & after & -> & -> & _ & H).
  f_equal. apply H. intros idx Hidx Hin.
  apply list_elem_of_In in Hidx. apply list_elem_of_In in Hin.
  vm_compute in Hidx.
  destruct Hidx as [<-|[<-|[<-|[]]]]; vm_compute in Hin;
    intuition discriminate.
Defined.

(** X21 on [br1]: a Bridge without UUID gets the index _uuid once a UUID
    is set. *)
Lemma X21_SetField_validates_index_witness :
  reachable br1Info
  /\ getValidIndexes br1Info = Ok [["name"]]
  /\ exists validIndexes,
       getValidIndexes (snd (SetField br1Info "_uuid" (VString TString "u1")))
       = Ok validIndexes
       /\ ["_uuid"] ∈ validIndexes.
Proof.
  split; [by_NewInfo bridgeTable br1|]. split; [vm_compute; reflexivity|].
  apply (X21_SetField_validates_index (ovsdb := exOvsdb) br1Info "_uuid"
           (VString TString "u1") TString TString ["_uuid"]).
  - by_NewInfo bridgeTable br1.
  - vm_compute; reflexivity.
  - reflexivity.
  - discriminate.
  - vm_compute; reflexivity.
  - reflexivity.
  - apply list_elem_of_here.
  - intros col Hcol Hne. apply list_elem_of_In in Hcol.
    destruct Hcol as [<-|[]]. now destruct Hne.
Defined.
